(** * Books-to-Scrape scraper: a shallow embedding of [scrape_books.py]

    The development follows the layout of the Python module:
    - [PyStr]: the [str] operations the scraper relies on ([lower], [in],
      [strip], [join], [str(int)]);
    - [Soup]: the part of the BeautifulSoup tree API the scraper calls;
    - [Csv]: the writer and reader of Python's [csv] module (excel dialect);
    - the scraper itself: [extract_rating], [extract_availability],
      [scrape_book_listing], [get_page], [scrape_book_detail],
      [scrape_books], [save_to_csv] and [main].

    Text is modelled by [string], one [ascii] per character; [lower], the
    digit class and the whitespace class act on the ASCII range. *)

From Stdlib Require Import List String Ascii ZArith Bool Lia Arith.
From Stdlib Require Import Numbers.DecimalString Numbers.DecimalZ.
From Stdlib Require Import Sorting.Sorted.
Import ListNotations.

Set Warnings "-register-all".

Local Open Scope string_scope.
Local Open Scope list_scope.

(* ================================================================== *)
(** ** Python [str] operations *)

Module PyStr.

(** [c.lower()] on one character: [A-Z] is moved to [a-z]. *)
Definition lower_char (c : ascii) : ascii :=
  let n := nat_of_ascii c in
  if (65 <=? n)%nat && (n <=? 90)%nat then ascii_of_nat (n + 32) else c.

(** [s.lower()] *)
Fixpoint lower (s : string) : string :=
  match s with
  | EmptyString => EmptyString
  | String c s' => String (lower_char c) (lower s')
  end.

(** [sub in s]: substring test. *)
Fixpoint contains (sub s : string) : bool :=
  prefix sub s ||
  match s with
  | EmptyString => false
  | String _ s' => contains sub s'
  end.

(** Propositional reading of [sub in s]. *)
Definition occurs (sub s : string) : Prop :=
  exists pre post, s = (pre ++ sub ++ post)%string.

(** The characters removed by [str.strip()] (the ASCII ones):
    tab, newline, vertical tab, form feed, carriage return,
    the separators 28-31 and the space. *)
Definition is_space (c : ascii) : bool :=
  let n := nat_of_ascii c in
  ((9 <=? n)%nat && (n <=? 13)%nat) || ((28 <=? n)%nat && (n <=? 32)%nat).

(** [s.lstrip()] *)
Fixpoint lstrip (s : string) : string :=
  match s with
  | EmptyString => EmptyString
  | String c s' => if is_space c then lstrip s' else s
  end.

(** [s.rstrip()] *)
Fixpoint rstrip (s : string) : string :=
  match s with
  | EmptyString => EmptyString
  | String c s' =>
      match rstrip s' with
      | EmptyString => if is_space c then EmptyString else String c EmptyString
      | r => String c r
      end
  end.

(** [s.strip()] *)
Definition strip (s : string) : string := rstrip (lstrip s).

(** [sep.join(ls)] *)
Definition join (sep : string) (ls : list string) : string :=
  String.concat sep ls.

(** [str(n)] for an [int]. *)
Definition str_of_int (n : Z) : string :=
  NilEmpty.string_of_int (Z.to_int n).

(** [int(s)] on the output of [str]: [None] stands for [ValueError]. *)
Definition int_of_str (s : string) : option Z :=
  option_map Z.of_int (NilEmpty.int_of_string s).

(** [\d] of the [re] module. *)
Definition is_digit (c : ascii) : bool :=
  let n := nat_of_ascii c in (48 <=? n)%nat && (n <=? 57)%nat.

Fixpoint all_digits (s : string) : bool :=
  match s with
  | EmptyString => true
  | String c s' => is_digit c && all_digits s'
  end.

(** The longest prefix of digits, and what follows it. *)
Fixpoint span_digits (s : string) : string * string :=
  match s with
  | EmptyString => (EmptyString, EmptyString)
  | String c s' =>
      if is_digit c
      then let (ds, rest) := span_digits s' in (String c ds, rest)
      else (EmptyString, s)
  end.

End PyStr.

Import PyStr.

(* ================================================================== *)
(** ** Records *)

(** [BookRow] (the dataclass) *)
Record BookRow := mkBookRow {
  title : string;
  price : string;
  rating : Z;
  availability : string;
  product_url : string;
  upc : option string;
  category : option string;
  description : option string
}.

(* ================================================================== *)
(** ** Rating and availability *)

(** [self.rating_map]; a dict iterates in insertion order. *)
Definition rating_map : list (string * Z) :=
  [("One", 1%Z); ("Two", 2%Z); ("Three", 3%Z); ("Four", 4%Z); ("Five", 5%Z)].

(** The loop of [extract_rating] over [rating_map.items()]. *)
Fixpoint extract_rating_loop (items : list (string * Z)) (rating_class : string) : Z :=
  match items with
  | [] => 0%Z
  | (word, num) :: rest =>
      if contains (lower word) (lower rating_class) then num
      else extract_rating_loop rest rating_class
  end.

(** [extract_rating] *)
Definition extract_rating (rating_class : string) : Z :=
  extract_rating_loop rating_map rating_class.

(** A match of [\((\d+) available\)] anchored at the start of [s];
    the value is group 1. *)
Definition match_count_here (s : string) : option string :=
  match s with
  | String "(" rest =>
      let (ds, rest') := span_digits rest in
      if (ds =? "")%string then None
      else if prefix " available)" rest' then Some ds else None
  | _ => None
  end.

(** [re.search(r'\((\d+) available\)', s)]: the leftmost match, as group 1. *)
Fixpoint search_count (s : string) : option string :=
  match match_count_here s with
  | Some ds => Some ds
  | None =>
      match s with
      | EmptyString => None
      | String _ s' => search_count s'
      end
  end.

(** [extract_availability] *)
Definition extract_availability (availability_text : string) : string :=
  if contains "In stock" availability_text then
    match search_count availability_text with
    | Some ds => ds
    | None => "Unknown"
    end
  else "0".

(* ================================================================== *)
(** ** The BeautifulSoup tree *)

Module Soup.

(** A parsed document: tags with their attributes and children, and text.
    [class] is the one multi-valued attribute the scraper reads; it is kept
    apart as the list of its tokens ([None] when the tag has none). *)
Inductive node : Type :=
| Tag (name : string) (classes : option (list string))
      (attrs : list (string * string)) (children : list node)
| NavigableString (s : string).

(** An element as the API hands it out: the node and, for sibling
    navigation, the nodes that follow it under the same parent. *)
Definition element : Type := node * list node.

Definition root (n : node) : element := (n, []).

(** Every node below [n] in document order, each with its next siblings. *)
Fixpoint descendants (n : node) : list element :=
  match n with
  | NavigableString _ => []
  | Tag _ _ _ cs =>
      (fix walk (l : list node) : list element :=
         match l with
         | [] => []
         | c :: l' => (c, l') :: descendants c ++ walk l'
         end) cs
  end.

(** [tag.text]: the strings below the tag, concatenated. *)
Fixpoint text (n : node) : string :=
  match n with
  | NavigableString s => s
  | Tag _ _ _ cs =>
      (fix cat (l : list node) : string :=
         match l with
         | [] => EmptyString
         | c :: l' => (text c ++ cat l')%string
         end) cs
  end.

(** [tag.string]: the single string below a chain of only children. *)
Fixpoint string_of (n : node) : option string :=
  match n with
  | NavigableString s => Some s
  | Tag _ _ _ (c :: nil) => string_of c
  | Tag _ _ _ _ => None
  end.

Definition is_tag (name : string) (n : node) : bool :=
  match n with
  | Tag nm _ _ _ => (nm =? name)%string
  | NavigableString _ => false
  end.

Fixpoint lookup (key : string) (attrs : list (string * string)) : option string :=
  match attrs with
  | [] => None
  | (k, v) :: rest => if (k =? key)%string then Some v else lookup key rest
  end.

(** [tag.get(key, default)] for a single-valued attribute. *)
Definition get (key default : string) (e : element) : string :=
  match fst e with
  | Tag _ _ attrs _ =>
      match lookup key attrs with Some v => v | None => default end
  | NavigableString _ => default
  end.

(** [tag.get('class', [])] *)
Definition get_class (e : element) : list string :=
  match fst e with
  | Tag _ (Some cl) _ _ => cl
  | _ => []
  end.

(** The [class_=cls] filter: one of the tokens is [cls], or the tokens
    joined by a space are. *)
Definition has_class (cls : string) (n : node) : bool :=
  match n with
  | Tag _ (Some cl) _ _ =>
      existsb (String.eqb cls) cl || (join " " cl =? cls)%string
  | _ => false
  end.

(** The [id=v] filter, and any other single-valued attribute. *)
Definition has_attr (key v : string) (n : node) : bool :=
  match n with
  | Tag _ _ attrs _ =>
      match lookup key attrs with Some v' => (v' =? v)%string | None => false end
  | NavigableString _ => false
  end.

(** The [string=v] filter. *)
Definition has_string (v : string) (n : node) : bool :=
  match string_of n with
  | Some s => (s =? v)%string
  | None => false
  end.

(** [tag.find_all(...)] with the filter [p]. *)
Definition find_all (p : node -> bool) (e : element) : list element :=
  filter (fun d => p (fst d)) (descendants (fst e)).

(** [tag.find(...)]: the first hit, or [None]. *)
Definition find (p : node -> bool) (e : element) : option element :=
  hd_error (find_all p e).

(** [tag.find_next_sibling(name)] *)
Fixpoint next_sibling (name : string) (sibs : list node) : option element :=
  match sibs with
  | [] => None
  | n :: rest => if is_tag name n then Some (n, rest) else next_sibling name rest
  end.

Definition find_next_sibling (name : string) (e : element) : option element :=
  next_sibling name (snd e).

End Soup.

Import Soup.

(* ================================================================== *)
(** ** Exceptions *)

Inductive exn : Type :=
| AttributeError   (* an attribute of [None] *)
| IndexError       (* [[-1]] of an empty list *)
| ValueError       (* [urljoin] on a malformed URL *)
| KeyError (key : string)   (* [d[key]] without the key *)
| TypeError        (* [None[:50]] *)
| CsvError.        (* [csv.Error] *)

Inductive result (A : Type) : Type :=
| Ok (a : A)
| Raise (e : exn).

Arguments Ok {A} a.
Arguments Raise {A} e.

Definition rbind {A B} (r : result A) (k : A -> result B) : result B :=
  match r with
  | Ok a => k a
  | Raise e => Raise e
  end.

(** [x.attr] where [x] may be [None]. *)
Definition deref {A} (o : option A) : result A :=
  match o with
  | Some a => Ok a
  | None => Raise AttributeError
  end.

(** [l[-1]] *)
Definition last_item {A} (l : list A) : result A :=
  match rev l with
  | a :: _ => Ok a
  | [] => Raise IndexError
  end.

Notation "x <-? r ;; k" := (rbind r (fun x => k))
  (at level 61, r at next level, right associativity).

(* ================================================================== *)
(** ** The world the scraper runs in *)

Inductive level : Type := DEBUG | INFO | WARNING | ERROR.

(** The records handed to [self.logger]. *)
Inductive message : Type :=
| Fetching (url : string) (attempt : Z)
| AttemptFailed (attempt : Z)
| FailedToFetch (url : string) (max_retries : Z)
| ErrorParsingBook (e : exn)
| ErrorFetchingDetails (book_title : string) (e : exn)
| CrawlingPage (page_num : Z)
| FailedPage (page_num : Z)
| FoundBooks (count : nat) (page_num : Z)
| FetchingDetailed
| FetchingDetailsFor (i : nat) (count : nat) (book_title : string)
| TotalScraped (count : nat)
| SavingCsv (count : nat) (filename : string)
| CsvSaved (filename : string)
| SavingSqlite (count : nat) (filename : string)
| SqliteSaved (filename : string).

(** The argument of [time.sleep]: the politeness pause [self.delay], or a
    whole number of seconds of backoff. *)
Inductive pause : Type :=
| Delay
| Seconds (n : Z).

Inductive event : Type :=
| Log (lvl : level) (m : message)
| HttpGet (url : string)
| Sleep (p : pause)
| Print (line : string).

(** A row of the [books] table; [id] is the AUTOINCREMENT key. *)
Definition db_row : Type := (Z * BookRow)%type.

Record world : Type := mkWorld {
  (** what the site answers to the [k]-th request of the run:
      the parsed page, or [None] for a [RequestException]
      (connection error, timeout, or the error status that
      [raise_for_status] turns into one) *)
  net : nat -> string -> option node;
  (** requests issued so far *)
  nreq : nat;
  (** what the run has done so far, oldest first *)
  trace : list event;
  (** text files by name *)
  fs : string -> option string;
  (** SQLite files by name: the rows of [books] *)
  db : string -> option (list db_row)
}.

(** Computations of the scraper: state passing over [world]. *)
Definition M (A : Type) : Type := world -> A * world.

Definition ret {A} (a : A) : M A := fun w => (a, w).

Definition bind {A B} (m : M A) (k : A -> M B) : M B :=
  fun w => let (a, w') := m w in k a w'.

Notation "x <- m ;; k" := (bind m (fun x => k))
  (at level 61, m at next level, right associativity).
Notation "m ;; k" := (bind m (fun _ => k))
  (at level 61, right associativity).

Definition emit (e : event) : M unit :=
  fun w => (tt, mkWorld (net w) (nreq w) (trace w ++ [e]) (fs w) (db w)).

Definition log (lvl : level) (m : message) : M unit := emit (Log lvl m).

Definition sleep (p : pause) : M unit := emit (Sleep p).

Definition print (line : string) : M unit := emit (Print line).

(** [self.session.get(url, timeout=10)], [raise_for_status()] and the
    parse of the body. *)
Definition session_get (url : string) : M (option node) :=
  fun w => (net w (nreq w) url,
            mkWorld (net w) (S (nreq w)) (trace w ++ [HttpGet url]) (fs w) (db w)).

(** [open(filename, 'w')] followed by the write of [content]. *)
Definition write_file (filename content : string) : M unit :=
  fun w => (tt, mkWorld (net w) (nreq w) (trace w)
                  (fun f => if (f =? filename)%string then Some content else fs w f)
                  (db w)).

(** A [for] loop over [xs] whose body updates the loop state [acc]. *)
Fixpoint for_each {A S : Type} (xs : list A) (acc : S) (body : S -> A -> M S) : M S :=
  match xs with
  | [] => ret acc
  | x :: xs' => acc' <- body acc x ;; for_each xs' acc' body
  end.

(** [range(lo, hi)] *)
Definition range (lo hi : Z) : list Z :=
  map (fun k => (lo + Z.of_nat k)%Z) (seq 0 (Z.to_nat (hi - lo))).

(** [enumerate(l)] *)
Definition enumerate {A} (l : list A) : list (nat * A) :=
  combine (seq 0 (List.length l)) l.

(** [l[i] = v] for [i] in range. *)
Fixpoint set_item {A} (l : list A) (i : nat) (v : A) : list A :=
  match l, i with
  | [], _ => []
  | _ :: l', O => v :: l'
  | a :: l', S i' => a :: set_item l' i' v
  end.

(* ================================================================== *)
(** ** The scraper *)

Section Scraper.

(** [urllib.parse.urljoin]; it raises [ValueError] on some malformed
    URLs. *)
Variable urljoin : string -> string -> result string.

(** The attempts of [get_page] that are still to run. *)
Fixpoint get_page_loop (url : string) (max_retries : Z) (attempts : list Z)
  : M (option node) :=
  match attempts with
  | [] => ret None
  | attempt :: rest =>
      log INFO (Fetching url (attempt + 1)) ;;
      r <- session_get url ;;
      match r with
      | Some soup =>
          sleep Delay ;;
          ret (Some soup)
      | None =>
          log WARNING (AttemptFailed (attempt + 1)) ;;
          if (attempt <? max_retries - 1)%Z then
            sleep (Seconds (2 ^ attempt)) ;;
            get_page_loop url max_retries rest
          else
            log ERROR (FailedToFetch url max_retries) ;;
            ret None
      end
  end.

(** [get_page] *)
Definition get_page (url : string) (max_retries : Z) : M (option node) :=
  get_page_loop url max_retries (range 0 max_retries).

Definition default_max_retries : Z := 3.

(** The body of the [try] in [scrape_book_listing]: one item. *)
Definition parse_article (article : element) (base_url : string) : result BookRow :=
  h3 <-? deref (find (is_tag "h3") article) ;;
  title_link <-? deref (find (is_tag "a") h3) ;;
  let title := strip (get "title" "" title_link) in
  let relative_url := get "href" "" title_link in
  product_url <-? urljoin base_url relative_url ;;
  let price_element :=
    find (fun n => is_tag "p" n && has_class "price_color" n) article in
  let price :=
    match price_element with
    | Some e => strip (text (fst e))
    | None => "N/A"
    end in
  let rating_element :=
    find (fun n => is_tag "p" n && has_class "star-rating" n) article in
  let rating_class :=
    match rating_element with
    | Some e => get_class e
    | None => []
    end in
  let rating := extract_rating (join " " rating_class) in
  let availability_element :=
    find (fun n => is_tag "p" n && has_class "instock availability" n) article in
  let availability_text :=
    match availability_element with
    | Some e => strip (text (fst e))
    | None => ""
    end in
  let availability := extract_availability availability_text in
  Ok (mkBookRow title price rating availability product_url None None None).

(** [soup.find_all('article', class_='product_pod')] *)
Definition product_pods (soup : node) : list element :=
  find_all (fun n => is_tag "article" n && has_class "product_pod" n) (root soup).

(** [scrape_book_listing] *)
Definition scrape_book_listing (soup : node) (base_url : string) : M (list BookRow) :=
  let articles := product_pods soup in
  for_each articles []
    (fun books article =>
       match parse_article article base_url with
       | Ok book => ret (books ++ [book])
       | Raise e => log WARNING (ErrorParsingBook e) ;; ret books
       end).

(** The [UPC] lines of [scrape_book_detail]. *)
Definition extract_upc (soup : node) : result (option string) :=
  let upc_element :=
    find (fun n => is_tag "th" n && has_string "UPC" n) (root soup) in
  match upc_element with
  | Some e =>
      td <-? deref (find_next_sibling "td" e) ;;
      Ok (Some (strip (text (fst td))))
  | None => Ok None
  end.

(** The [Category] lines; a tag counts as true, so the [else None] of the
    source is never taken. *)
Definition extract_category (soup : node) : result (option string) :=
  breadcrumb <-? deref (find (fun n => is_tag "ul" n && has_class "breadcrumb" n)
                          (root soup)) ;;
  category_element <-? last_item (find_all (is_tag "a") breadcrumb) ;;
  Ok (Some (strip (text (fst category_element)))).

(** The [Description] lines. *)
Definition extract_description (soup : node) : result (option string) :=
  let desc_element :=
    find (fun n => is_tag "div" n && has_attr "id" "product_description" n)
      (root soup) in
  match desc_element with
  | Some e =>
      p <-? deref (find_next_sibling "p" e) ;;
      Ok (Some (strip (text (fst p))))
  | None => Ok None
  end.

(** The body of the [try] in [scrape_book_detail], up to the assignments. *)
Definition extract_detail (soup : node)
  : result (option string * option string * option string) :=
  upc <-? extract_upc soup ;;
  category <-? extract_category soup ;;
  description <-? extract_description soup ;;
  Ok (upc, category, description).

(** [scrape_book_detail] *)
Definition scrape_book_detail (book : BookRow) : M BookRow :=
  soup <- get_page (product_url book) default_max_retries ;;
  match soup with
  | None => ret book
  | Some soup =>
      match extract_detail soup with
      | Ok (upc', category', description') =>
          ret (mkBookRow (title book) (price book) (rating book)
                 (availability book) (product_url book)
                 upc' category' description')
      | Raise e =>
          log WARNING (ErrorFetchingDetails (title book) e) ;;
          ret book
      end
  end.

Definition base_url : string := "https://books.toscrape.com/catalogue/".

(** [f"{base_url}page-{page_num}.html"] *)
Definition page_url (page_num : Z) : string :=
  (base_url ++ "page-" ++ str_of_int page_num ++ ".html")%string.

(** The [if deep:] block: every book of the page, in place. *)
Definition fetch_details (books : list BookRow) : M (list BookRow) :=
  log INFO FetchingDetailed ;;
  for_each (enumerate books) books
    (fun books' ib =>
       let (i, book) := ib : nat * BookRow in
       log INFO (FetchingDetailsFor (i + 1) (List.length books') (title book)) ;;
       book' <- scrape_book_detail book ;;
       ret (set_item books' i book')).

(** One turn of the loop of [scrape_books]. *)
Definition scrape_page (deep : bool) (all_books : list BookRow) (page_num : Z)
  : M (list BookRow) :=
  log INFO (CrawlingPage page_num) ;;
  soup <- get_page (page_url page_num) default_max_retries ;;
  match soup with
  | None =>
      log ERROR (FailedPage page_num) ;;
      ret all_books
  | Some soup =>
      books <- scrape_book_listing soup base_url ;;
      log INFO (FoundBooks (List.length books) page_num) ;;
      books <- (if deep then fetch_details books else ret books) ;;
      ret (all_books ++ books)
  end.

(** [scrape_books] *)
Definition scrape_books (max_pages : Z) (deep : bool) : M (list BookRow) :=
  all_books <- for_each (range 1 (max_pages + 1)) [] (scrape_page deep) ;;
  log INFO (TotalScraped (List.length all_books)) ;;
  ret all_books.

End Scraper.

(* ================================================================== *)
(** ** The [csv] module, excel dialect

    [delimiter=','], the double quote as [quotechar], [doublequote=True],
    [lineterminator='\r\n'], [quoting=QUOTE_MINIMAL], [escapechar=None],
    [skipinitialspace=False], [strict=False].  The parser is the one of
    CPython 3.11 and later, for which every character is data. *)

Module Csv.

Definition delimiter : ascii := ",".
Definition quotechar : ascii := "034".
Definition CR : ascii := "013".
Definition LF : ascii := "010".

Definition lineterminator : string := String CR (String LF EmptyString).

(** *** Writer *)

(** The characters that make QUOTE_MINIMAL quote a field. *)
Definition is_special (c : ascii) : bool :=
  (c =? delimiter)%char || (c =? quotechar)%char || (c =? CR)%char || (c =? LF)%char.

Fixpoint needs_quotes (field : string) : bool :=
  match field with
  | EmptyString => false
  | String c s => is_special c || needs_quotes s
  end.

(** [doublequote]: every quote character of the data is written twice. *)
Fixpoint double_quotes (field : string) : string :=
  match field with
  | EmptyString => EmptyString
  | String c s =>
      if (c =? quotechar)%char
      then String quotechar (String quotechar (double_quotes s))
      else String c (double_quotes s)
  end.

Definition render_field (field : string) : string :=
  if needs_quotes field
  then String quotechar (double_quotes field ++ String quotechar EmptyString)
  else field.

(** [writer.writerow(fields)]: the text appended to the file.  A record
    that would be empty (one empty field) is written as a pair of quotes. *)
Definition render_row (fields : list string) : string :=
  let rec := String.concat (String delimiter EmptyString) (map render_field fields) in
  let rec :=
    match fields, rec with
    | _ :: _, EmptyString => String quotechar (String quotechar EmptyString)
    | _, _ => rec
    end in
  (rec ++ lineterminator)%string.

Fixpoint render_rows (rows : list (list string)) : string :=
  match rows with
  | [] => EmptyString
  | r :: rest => (render_row r ++ render_rows rest)%string
  end.

(** *** Reader *)

(** The parser states that are reachable without an escape character. *)
Inductive state : Type :=
| START_RECORD
| START_FIELD
| IN_FIELD
| IN_QUOTED_FIELD
| QUOTE_IN_QUOTED_FIELD
| EAT_CRNL.

Definition state_eqb (a b : state) : bool :=
  match a, b with
  | START_RECORD, START_RECORD
  | START_FIELD, START_FIELD
  | IN_FIELD, IN_FIELD
  | IN_QUOTED_FIELD, IN_QUOTED_FIELD
  | QUOTE_IN_QUOTED_FIELD, QUOTE_IN_QUOTED_FIELD
  | EAT_CRNL, EAT_CRNL => true
  | _, _ => false
  end.

Record reader : Type := mkReader {
  st : state;
  field : string;          (* the field being collected *)
  fields : list string     (* the fields of the record so far *)
}.

(** [parse_reset] *)
Definition reset : reader := mkReader START_RECORD EmptyString [].

(** What the parser is fed: a character of a line, or the end of the line. *)
Inductive token : Type :=
| Ch (c : ascii)
| EOL.

Definition is_newline (t : token) : bool :=
  match t with
  | Ch c => (c =? CR)%char || (c =? LF)%char
  | EOL => false
  end.

Definition add_char (r : reader) (c : ascii) (s : state) : reader :=
  mkReader s (field r ++ String c EmptyString) (fields r).

(** [parse_save_field] *)
Definition save_field (r : reader) (s : state) : reader :=
  mkReader s EmptyString (fields r ++ [field r]).

Definition goto (r : reader) (s : state) : reader :=
  mkReader s (field r) (fields r).

Definition after_newline (t : token) : state :=
  match t with
  | EOL => START_RECORD
  | Ch _ => EAT_CRNL
  end.

(** [START_FIELD], also reached by fall-through from [START_RECORD]. *)
Definition start_field (r : reader) (t : token) : reader :=
  match t with
  | EOL => save_field r START_RECORD
  | Ch c =>
      if is_newline t then save_field r EAT_CRNL
      else if (c =? quotechar)%char then goto r IN_QUOTED_FIELD
      else if (c =? delimiter)%char then save_field r START_FIELD
      else add_char r c IN_FIELD
  end.

(** [parse_process_char]; the one error is a character after a bare
    newline in an unquoted field. *)
Definition process_char (r : reader) (t : token) : option reader :=
  match st r with
  | START_RECORD =>
      match t with
      | EOL => Some r
      | Ch _ => if is_newline t then Some (goto r EAT_CRNL)
                else Some (start_field r t)
      end
  | START_FIELD => Some (start_field r t)
  | IN_FIELD =>
      match t with
      | EOL => Some (save_field r START_RECORD)
      | Ch c =>
          if is_newline t then Some (save_field r EAT_CRNL)
          else if (c =? delimiter)%char then Some (save_field r START_FIELD)
          else Some (add_char r c IN_FIELD)
      end
  | IN_QUOTED_FIELD =>
      match t with
      | EOL => Some r
      | Ch c =>
          if (c =? quotechar)%char then Some (goto r QUOTE_IN_QUOTED_FIELD)
          else Some (add_char r c IN_QUOTED_FIELD)
      end
  | QUOTE_IN_QUOTED_FIELD =>
      match t with
      | EOL => Some (save_field r START_RECORD)
      | Ch c =>
          if (c =? quotechar)%char then Some (add_char r c IN_QUOTED_FIELD)
          else if (c =? delimiter)%char then Some (save_field r START_FIELD)
          else if is_newline t then Some (save_field r EAT_CRNL)
          else Some (add_char r c IN_FIELD)
      end
  | EAT_CRNL =>
      match t with
      | EOL => Some (goto r START_RECORD)
      | Ch _ => if is_newline t then Some r else None
      end
  end.

(** The characters of one line. *)
Fixpoint process_chars (r : reader) (line : string) : option reader :=
  match line with
  | EmptyString => Some r
  | String c rest =>
      match process_char r (Ch c) with
      | Some r' => process_chars r' rest
      | None => None
      end
  end.

(** One line: its characters, then the end-of-line mark. *)
Definition process_line (r : reader) (line : string) : option reader :=
  match process_chars r line with
  | Some r' => process_char r' EOL
  | None => None
  end.

(** What iterating over a reader yields: the records read, and whether
    the iteration ended in [csv.Error] rather than at the end of input. *)
Definition records : Type := (list (list string) * bool)%type.

Definition yield (rec : list string) (rs : records) : records :=
  (rec :: fst rs, snd rs).

(** The reader over the lines of the file: a record ends with the line
    after which the parser is back in [START_RECORD]; input that ends
    inside a record yields the record as it stands. *)
Fixpoint read_lines (lines : list string) (r : reader) : records :=
  match lines with
  | [] =>
      if negb (field r =? "")%string || state_eqb (st r) IN_QUOTED_FIELD
      then ([fields r ++ [field r]], false)
      else ([], false)
  | line :: rest =>
      match process_line r line with
      | None => ([], true)
      | Some r' =>
          if state_eqb (st r') START_RECORD
          then yield (fields r') (read_lines rest reset)
          else read_lines rest r'
      end
  end.

(** The lines of a file opened with [newline='']: a line ends after
    [\n], after [\r\n], or after a [\r] alone, and keeps its ending.
    [cur] is the line collected so far. *)
Fixpoint split_lines (cur : string) (s : string) : list string :=
  match s with
  | EmptyString => if (cur =? "")%string then [] else [cur]
  | String c s' =>
      let cur' := (cur ++ String c EmptyString)%string in
      if (c =? LF)%char then cur' :: split_lines EmptyString s'
      else if (c =? CR)%char then
        match s' with
        | String c2 s'' =>
            if (c2 =? LF)%char
            then (cur' ++ String LF EmptyString)%string :: split_lines EmptyString s''
            else cur' :: split_lines EmptyString s'
        | EmptyString => [cur']
        end
      else split_lines cur' s'
  end.

(** The text of a file opened in the default text mode: [\r\n] and [\r]
    are read as [\n]. *)
Fixpoint translate_newlines (s : string) : string :=
  match s with
  | EmptyString => EmptyString
  | String c s' =>
      if (c =? CR)%char then
        match s' with
        | String c2 s'' =>
            if (c2 =? LF)%char then String LF (translate_newlines s'')
            else String LF (translate_newlines s')
        | EmptyString => String LF EmptyString
        end
      else String c (translate_newlines s')
  end.

(** [csv.reader(f)] over a file with the given text. *)
Definition read (content : string) : records :=
  read_lines (split_lines EmptyString content) reset.

(** A row of [csv.DictReader]: a dict from column names to the row's
    values; [None] is the [restval] of a column the row is too short for. *)
Definition dict_row : Type := list (string * option string).

Fixpoint zip_row (fieldnames row : list string) : dict_row :=
  match fieldnames, row with
  | [], _ => []
  | k :: ks, [] => (k, None) :: zip_row ks []
  | k :: ks, v :: vs => (k, Some v) :: zip_row ks vs
  end.

(** [d[key]]; of two equal keys the later one has won. *)
Fixpoint dict_get (key : string) (d : dict_row) : option (option string) :=
  match d with
  | [] => None
  | (k, v) :: rest =>
      match dict_get key rest with
      | Some v' => Some v'
      | None => if (k =? key)%string then Some v else None
      end
  end.

Definition is_blank (rec : list string) : bool :=
  match rec with
  | [] => true
  | _ :: _ => false
  end.

(** [csv.DictReader]: the first record names the columns, blank records
    after it are skipped. *)
Definition dict_rows (rs : records) : list dict_row * bool :=
  match fst rs with
  | [] => ([], snd rs)
  | fieldnames :: rows =>
      (map (zip_row fieldnames) (filter (fun r => negb (is_blank r)) rows), snd rs)
  end.

End Csv.

(* ================================================================== *)
(** ** Sinks and the command line *)

(** The [fieldnames] of [save_to_csv]. *)
Definition fieldnames : list string :=
  ["title"; "price"; "rating"; "availability"; "product_url";
   "upc"; "category"; "description"].

(** [x or ''] *)
Definition or_empty (x : option string) : string :=
  match x with
  | Some s => s
  | None => ""
  end.

(** The dict handed to [writer.writerow], in the order of [fieldnames],
    each value as [str] writes it. *)
Definition csv_row (book : BookRow) : list string :=
  [title book; price book; str_of_int (rating book); availability book;
   product_url book; or_empty (upc book); or_empty (category book);
   or_empty (description book)].

(** [save_to_csv] *)
Definition save_to_csv (books : list BookRow) (filename : string) : M unit :=
  log INFO (SavingCsv (List.length books) filename) ;;
  write_file filename (Csv.render_rows (fieldnames :: map csv_row books)) ;;
  log INFO (CsvSaved filename).

(** The key AUTOINCREMENT gives the next row. *)
Definition next_id (rows : list db_row) : Z :=
  (1 + fold_right Z.max 0 (map fst rows))%Z.

Fixpoint insert_all (rows : list db_row) (books : list BookRow) : list db_row :=
  match books with
  | [] => rows
  | b :: rest => insert_all (rows ++ [(next_id rows, b)]) rest
  end.

(** [save_to_sqlite]: the table is created when the file has none, the
    rows are added to those already there. *)
Definition save_to_sqlite (books : list BookRow) (filename : string) : M unit :=
  log INFO (SavingSqlite (List.length books) filename) ;;
  (fun w =>
     let table := match db w filename with Some rows => rows | None => [] end in
     (tt, mkWorld (net w) (nreq w) (trace w) (fs w)
            (fun f => if (f =? filename)%string
                      then Some (insert_all table books) else db w f))) ;;
  log INFO (SqliteSaved filename).

Definition nl : string := String Csv.LF EmptyString.

Fixpoint repeat_string (s : string) (n : nat) : string :=
  match n with
  | O => EmptyString
  | S n' => (s ++ repeat_string s n')%string
  end.

(** [s[:n]] *)
Definition take (n : nat) (s : string) : string := substring 0 n s.

(** A value inside an f-string. *)
Definition fmt (v : option string) : string :=
  match v with
  | Some s => s
  | None => "None"
  end.

(** A string that may be empty or [None], as a condition. *)
Definition truthy (x : option string) : option string :=
  match x with
  | Some s => if (s =? "")%string then None else Some s
  | None => None
  end.

(** The line of one sample row. *)
Definition sample_line (i : nat) (title50 price rating : string) : string :=
  ("  " ++ str_of_int (Z.of_nat i + 1) ++ ". " ++ title50 ++ "... | "
   ++ price ++ " | Rating: " ++ rating)%string.

(** The loop over [enumerate(reader)] in [print_sample_data]: rows are
    read one at a time, so an error of the reader is met only if the loop
    gets to it. *)
Fixpoint print_csv_rows (rows : list Csv.dict_row) (failed : bool) (i : nat) (limit : Z)
  : M (result unit) :=
  match rows with
  | [] => ret (if failed then Raise CsvError else Ok tt)
  | row :: rest =>
      if (Z.of_nat i >=? limit)%Z then ret (Ok tt)
      else
        match Csv.dict_get "title" row, Csv.dict_get "price" row,
              Csv.dict_get "rating" row with
        | None, _, _ => ret (Raise (KeyError "title"))
        | Some None, _, _ => ret (Raise TypeError)
        | Some (Some t), None, _ => ret (Raise (KeyError "price"))
        | Some (Some t), Some p, None => ret (Raise (KeyError "rating"))
        | Some (Some t), Some p, Some r =>
            print (sample_line i (take 50 t) (fmt p) (fmt r)) ;;
            print_csv_rows rest failed (S i) limit
        end
  end.

Fixpoint print_db_rows (rows : list db_row) (i : nat) : M unit :=
  match rows with
  | [] => ret tt
  | (_, b) :: rest =>
      print (sample_line i (take 50 (title b)) (price b) (str_of_int (rating b))) ;;
      print_db_rows rest (S i)
  end.

(** [SELECT ... LIMIT n]: a negative [n] is no limit. *)
Definition sql_limit {A} (n : Z) (rows : list A) : list A :=
  if (n <? 0)%Z then rows else firstn (Z.to_nat n) rows.

(** [print_sample_data] *)
Definition print_sample_data (csv_file : string) (sqlite_file : option string)
  (limit : Z) : M (result unit) :=
  print (nl ++ repeat_string "=" 60) ;;
  print ("SAMPLE DATA - First " ++ str_of_int limit ++ " rows") ;;
  print (repeat_string "=" 60) ;;
  r <- (fun w =>
          match fs w csv_file with
          | Some content =>
              (print (nl ++ "📄 CSV Sample (" ++ csv_file ++ "):") ;;
               let (rows, failed) :=
                 Csv.dict_rows
                   (Csv.read_lines
                      (Csv.split_lines EmptyString (Csv.translate_newlines content))
                      Csv.reset) in
               print_csv_rows rows failed 0 limit) w
          | None => (Ok tt, w)
          end) ;;
  match r with
  | Raise e => ret (Raise e)
  | Ok _ =>
      match truthy sqlite_file with
      | Some file =>
          (fun w =>
             match db w file with
             | Some rows =>
                 (print (nl ++ "🗄️  SQLite Sample (" ++ file ++ "):") ;;
                  print_db_rows (sql_limit limit rows) 0 ;;
                  ret (Ok tt)) w
             | None => (Ok tt, w)
             end)
      | None => ret (Ok tt)
      end
  end.

(** The parsed command line.  [--delay] is the length of the [Delay]
    pause and [--log-level] the threshold of the log handler; neither
    changes what the run does. *)
Record args : Type := mkArgs {
  max_pages : Z;
  deep : bool;
  out_csv : string;
  out_sqlite : option string
}.

(** How a call of [main] ends. *)
Inductive outcome : Type :=
| Returned                (* [return], or the end of the body *)
| SysExit (code : Z)      (* [sys.exit(code)] *)
| Raised (e : exn).       (* an exception that nothing caught *)

(** The status the interpreter exits with. *)
Definition exit_status (o : outcome) : Z :=
  match o with
  | Returned => 0
  | SysExit code => code
  | Raised _ => 1
  end.

Section Program.

Variable urljoin : string -> string -> result string.

(** [main] *)
Definition main (a : args) : M outcome :=
  books <- scrape_books urljoin (max_pages a) (deep a) ;;
  match books with
  | [] =>
      print "No books were scraped. Check your internet connection and try again." ;;
      ret Returned
  | _ :: _ =>
      save_to_csv books (out_csv a) ;;
      match truthy (out_sqlite a) with
      | Some file => save_to_sqlite books file
      | None => ret tt
      end ;;
      r <- print_sample_data (out_csv a) (out_sqlite a) 5 ;;
      match r with
      | Raise e => ret (Raised e)
      | Ok _ =>
          print (nl ++ "✅ Scraping completed successfully!") ;;
          print ("📊 Total books scraped: " ++ str_of_int (Z.of_nat (List.length books))) ;;
          print ("📄 CSV file: " ++ out_csv a) ;;
          match truthy (out_sqlite a) with
          | Some file => print ("🗄️  SQLite file: " ++ file)
          | None => ret tt
          end ;;
          ret Returned
      end
  end.

End Program.

(* ================================================================== *)
(** ** Vocabulary of the statements *)

(** [s] starts with a match of [\((\d+) available\)] whose group is [ds]. *)
Definition count_here (ds s : string) : Prop :=
  exists post,
    s = (String "(" ds ++ " available)" ++ post)%string
    /\ ds <> EmptyString /\ all_digits ds = true.

(** [s] holds a match of the pattern, and the leftmost one has group [ds]. *)
Inductive first_count : string -> string -> Prop :=
| first_count_here (s ds : string) :
    count_here ds s -> first_count s ds
| first_count_later (c : ascii) (s ds : string) :
    (forall ds', ~ count_here ds' (String c s)) ->
    first_count s ds -> first_count (String c s) ds.

(** [s] holds no match of the pattern. *)
Definition no_count (s : string) : Prop :=
  forall pre ds rest, s = (pre ++ rest)%string -> ~ count_here ds rest.

(** The records of the items of a page that parse, in page order. *)
Definition listing (urljoin : string -> string -> result string)
  (soup : node) (base_url : string) : list BookRow :=
  flat_map (fun article =>
              match parse_article urljoin article base_url with
              | Ok book => [book]
              | Raise _ => []
              end)
           (product_pods soup).

Definition is_alpha (c : ascii) : bool :=
  let n := nat_of_ascii (lower_char c) in (97 <=? n)%nat && (n <=? 122)%nat.

Definition is_scheme_char (c : ascii) : bool :=
  is_alpha c || is_digit c || (c =? "+")%char || (c =? "-")%char || (c =? ".")%char.

Fixpoint scheme_ends (s : string) : bool :=
  match s with
  | EmptyString => false
  | String c s' => (c =? ":")%char || (is_scheme_char c && scheme_ends s')
  end.

(** An absolute URL: it starts with a scheme and a colon. *)
Definition is_absolute (url : string) : bool :=
  match url with
  | EmptyString => false
  | String c s => is_alpha c && scheme_ends s
  end.

(** What [urljoin] gives for a base that ends in a slash and a reference
    that is empty or a plain relative path; the sample runs use it. *)
Definition urljoin_plain (base url : string) : result string :=
  if (url =? "")%string then Ok base else Ok (base ++ url)%string.

(** A world in which every request fails and no file exists. *)
Definition offline : world :=
  mkWorld (fun _ _ => None) 0 [] (fun _ => None) (fun _ => None).

(** A world that answers every request with the same page. *)
Definition serving (page : node) : world :=
  mkWorld (fun _ _ => Some page) 0 [] (fun _ => None) (fun _ => None).

(** Sample markup. *)
Definition p_class (cls : list string) (txt : string) : node :=
  Tag "p" (Some cls) [] [NavigableString txt].

Definition pod_link (link_attrs : list (string * string)) : node :=
  Tag "a" None link_attrs [NavigableString "A Light in ..."].

Definition pod_heading (link_attrs : list (string * string)) : node :=
  Tag "h3" None [] [pod_link link_attrs].

Definition pod (link_attrs : list (string * string)) (rest : list node) : node :=
  Tag "article" (Some ["product_pod"]) [] (pod_heading link_attrs :: rest).

(** An item with every field. *)
Definition pod_full : node :=
  pod [("href", "a-light_1000/index.html"); ("title", " A Light in the Attic ")]
    [p_class ["star-rating"; "Three"] "";
     p_class ["price_color"] "£51.77";
     p_class ["instock"; "availability"] "
    In stock (22 available)
"].

(** An item whose link has no [title] attribute. *)
Definition pod_untitled : node :=
  pod [("href", "untitled_1/index.html")]
    [p_class ["star-rating"; "Five"] ""; p_class ["price_color"] "£10.00"].

(** An item with a title link and nothing else. *)
Definition bare_attrs : list (string * string) :=
  [("href", "bare_2/index.html"); ("title", "Bare")].

Definition pod_bare : node := pod bare_attrs [].

Definition page_of (items : list node) : node :=
  Tag "[document]" None [] [Tag "html" None [] [Tag "body" None [] items]].

(** The requests among some events, by URL. *)
Definition gets (evs : list event) : list string :=
  flat_map (fun e => match e with HttpGet url => [url] | _ => [] end) evs.

(** The pauses among some events. *)
Definition sleeps (evs : list event) : list pause :=
  flat_map (fun e => match e with Sleep p => [p] | _ => [] end) evs.

(** The world [w] after the events [evs]: the scraper proper touches
    neither the files nor the site. *)
Definition after (w : world) (evs : list event) : world :=
  mkWorld (net w) (nreq w + List.length (gets evs)) (trace w ++ evs) (fs w) (db w).

(** What a run added to the trace of [w]. *)
Definition new_events (w w' : world) : list event :=
  skipn (List.length (trace w)) (trace w').

(** Every request from now on fails. *)
Definition all_fail (w : world) : Prop :=
  forall k url, nreq w <= k -> net w k url = None.

(** What [get_page] does in an attempt that fails. *)
Definition failed_attempt (url : string) (max_retries attempt : Z) : list event :=
  [Log INFO (Fetching url (attempt + 1)); HttpGet url;
   Log WARNING (AttemptFailed (attempt + 1))]
  ++ (if (attempt <? max_retries - 1)%Z
      then [Sleep (Seconds (2 ^ attempt))]
      else [Log ERROR (FailedToFetch url max_retries)]).

(** What one turn of the crawl loop does when every request fails. *)
Definition skipped_page (page_num : Z) : list event :=
  [Log INFO (CrawlingPage page_num)]
  ++ flat_map (failed_attempt (page_url page_num) default_max_retries)
       (range 0 default_max_retries)
  ++ [Log ERROR (FailedPage page_num)].

(** The page numbers the crawl loop announces, in order: one
    [CrawlingPage] record opens each turn, right before its listing fetch. *)
Definition marks (evs : list event) : list Z :=
  flat_map (fun e => match e with
                     | Log INFO (CrawlingPage page_num) => [page_num]
                     | _ => []
                     end) evs.

(** A computation that changes the world only by events, none of them
    the opening of a turn of the crawl loop. *)
Definition quiet {A} (m : M A) : Prop :=
  forall w, exists evs, m w = (fst (m w), after w evs) /\ marks evs = [].

(** One turn of the crawl loop, seen from outside: the page number, the
    world the turn started in, and the books the turn added. *)
Record page_run : Type := mkRun {
  pr_num : Z;
  pr_world : world;
  pr_books : list BookRow
}.

(** The turns of a crawl over [pages], each started in the world the
    previous one left. *)
Fixpoint page_runs (urljoin : string -> string -> result string) (deep : bool)
  (pages : list Z) (w : world) : list page_run :=
  match pages with
  | [] => []
  | p :: rest =>
      let (books, w') := scrape_page urljoin deep [] p w in
      mkRun p w books :: page_runs urljoin deep rest w'
  end.

(** The one listing fetch of a turn. *)
Definition pr_fetch (r : page_run) : option node :=
  fst (get_page (page_url (pr_num r)) default_max_retries
         (after (pr_world r) [Log INFO (CrawlingPage (pr_num r))])).

(** What the listing extractor finds on the page of a turn; nothing when
    the fetch failed. *)
Definition pr_listing (urljoin : string -> string -> result string)
  (r : page_run) : list BookRow :=
  match pr_fetch r with
  | Some soup => listing urljoin soup base_url
  | None => []
  end.

(** [book'] is [book] after the detail extractor, in some state of the
    world. *)
Definition enriched (book book' : BookRow) : Prop :=
  exists w, book' = fst (scrape_book_detail book w).

(** [book'] has the listing fields of [book]. *)
Definition same_item (book book' : BookRow) : Prop :=
  title book' = title book /\ price book' = price book
  /\ rating book' = rating book /\ availability book' = availability book
  /\ product_url book' = product_url book.

(** A field that was present is still present. *)
Definition kept (before after : option string) : Prop :=
  before <> None -> after <> None.

(** Sample product pages. *)
Definition upc_row : node :=
  Tag "tr" None []
    [Tag "th" None [] [NavigableString "UPC"];
     Tag "td" None [] [NavigableString "a897fe39b1053632"]].

Definition breadcrumb : node :=
  Tag "ul" (Some ["breadcrumb"]) []
    [Tag "li" None [] [Tag "a" None [("href", "../index.html")] [NavigableString "Home"]];
     Tag "li" None [] [Tag "a" None [("href", "../poetry_23/index.html")]
                         [NavigableString " Poetry "]];
     Tag "li" (Some ["active"]) [] [NavigableString "A Light in the Attic"]].

(** A product page with the UPC row and no breadcrumb. *)
Definition product_page_no_breadcrumb : node :=
  page_of [Tag "table" None [] [upc_row]].

(** A product page with the breadcrumb and no UPC row. *)
Definition product_page_no_upc : node :=
  page_of [breadcrumb].

(** A product page with both. *)
Definition product_page : node :=
  page_of [breadcrumb; Tag "table" None [] [upc_row]].

Definition light_in_the_attic : BookRow :=
  mkBookRow "A Light in the Attic" "£51.77" 3 "22"
    "https://books.toscrape.com/catalogue/a-light_1000/index.html"
    None None None.

(** The reader fed character by character: the same parser, with the end
    of a line met when the character that ends it goes by.  [pending] tells
    whether the current line has characters.  It is the form in which the
    reader is reasoned about, see [read_lines_stream]. *)
Definition end_line (r : Csv.reader) (k : Csv.reader -> Csv.records) : Csv.records :=
  match Csv.process_char r Csv.EOL with
  | None => ([], true)
  | Some r' =>
      if Csv.state_eqb (Csv.st r') Csv.START_RECORD
      then Csv.yield (Csv.fields r') (k Csv.reset)
      else k r'
  end.

Fixpoint stream (r : Csv.reader) (pending : bool) (s : string) : Csv.records :=
  match s with
  | EmptyString =>
      if pending then end_line r (Csv.read_lines []) else Csv.read_lines [] r
  | String c s' =>
      match Csv.process_char r (Csv.Ch c) with
      | None => ([], true)
      | Some r1 =>
          if (c =? Csv.LF)%char then end_line r1 (fun r' => stream r' false s')
          else if (c =? Csv.CR)%char then
            match s' with
            | String c2 s'' =>
                if (c2 =? Csv.LF)%char then
                  match Csv.process_char r1 (Csv.Ch Csv.LF) with
                  | None => ([], true)
                  | Some r2 => end_line r2 (fun r' => stream r' false s'')
                  end
                else end_line r1 (fun r' => stream r' false s')
            | EmptyString => end_line r1 (Csv.read_lines [])
            end
          else stream r1 true s'
      end
  end.

(** The parser where a field may begin. *)
Definition at_field (s : Csv.state) : Prop :=
  s = Csv.START_RECORD \/ s = Csv.START_FIELD.

(** What the columns of a row that was read back hold for a book. *)
Definition row_of_book (book : BookRow) (row : Csv.dict_row) : Prop :=
  Csv.dict_get "title" row = Some (Some (title book))
  /\ Csv.dict_get "price" row = Some (Some (price book))
  /\ Csv.dict_get "rating" row = Some (Some (str_of_int (rating book)))
  /\ int_of_str (str_of_int (rating book)) = Some (rating book)
  /\ Csv.dict_get "availability" row = Some (Some (availability book))
  /\ Csv.dict_get "product_url" row = Some (Some (product_url book))
  /\ Csv.dict_get "upc" row = Some (Some (or_empty (upc book)))
  /\ Csv.dict_get "category" row = Some (Some (or_empty (category book)))
  /\ Csv.dict_get "description" row = Some (Some (or_empty (description book)))
  /\ (upc book = None -> Csv.dict_get "upc" row = Some (Some ""))
  /\ (category book = None -> Csv.dict_get "category" row = Some (Some ""))
  /\ (description book = None -> Csv.dict_get "description" row = Some (Some "")).

(** The last steps of a [get_page] whose attempt [attempt] succeeds. *)
Definition successful_attempt (url : string) (attempt : Z) : list event :=
  [Log INFO (Fetching url (attempt + 1)); HttpGet url; Sleep Delay].

(** The seconds of backoff among some pauses. *)
Definition backoff_seconds (ps : list pause) : Z :=
  fold_right (fun p acc => match p with
                           | Seconds n => (n + acc)%Z
                           | Delay => acc
                           end) 0%Z ps.

(** What [extract_availability] can return. *)
Definition availability_shape (s : string) : Prop :=
  s = "0" \/ s = "Unknown" \/ (s <> "" /\ all_digits s = true).

(** The warning the listing extractor logs for an item, if any. *)
Definition listing_warning (urljoin : string -> string -> result string)
  (base : string) (article : element) : list event :=
  match parse_article urljoin article base with
  | Ok _ => []
  | Raise e => [Log WARNING (ErrorParsingBook e)]
  end.

(** A site whose first answer is an error and which serves [page] after. *)
Definition flaky (page : node) : world :=
  mkWorld (fun k _ => match k with O => None | S _ => Some page end)
    0 [] (fun _ => None) (fun _ => None).

(** The data model of a record: rating from 0 to 5, availability of the
    three shapes, title and price trimmed. *)
Definition well_formed (book : BookRow) : Prop :=
  (0 <= rating book <= 5)%Z
  /\ availability_shape (availability book)
  /\ strip (title book) = title book
  /\ strip (price book) = price book.

(** No optional field is set. *)
Definition bare (book : BookRow) : Prop :=
  upc book = None /\ category book = None /\ description book = None.

(** The requests of a crawl without [deep]: page by page, [k] requests
    for the listing URL of the page. *)
Fixpoint listing_requests (pages : list Z) (ks : list nat) : list string :=
  match pages, ks with
  | p :: pages', k :: ks' => repeat (page_url p) k ++ listing_requests pages' ks'
  | _, _ => []
  end.

(** The text ends with a carriage return. *)
Fixpoint ends_cr (s : string) : bool :=
  match s with
  | EmptyString => false
  | String c EmptyString => (c =? Csv.CR)%char
  | String _ s' => ends_cr s'
  end.

(** The text starts with a line feed. *)
Definition starts_lf (s : string) : bool :=
  match s with
  | String c _ => (c =? Csv.LF)%char
  | EmptyString => false
  end.

(** The text has no carriage return. *)
Fixpoint no_cr (s : string) : bool :=
  match s with
  | EmptyString => true
  | String c s' => negb (c =? Csv.CR)%char && no_cr s'
  end.

(** The text of a record before its line terminator, as [writerow] joins
    it. *)
Definition record_text (fields : list string) : string :=
  let rec := String.concat (String Csv.delimiter EmptyString)
               (map Csv.render_field fields) in
  match fields, rec with
  | _ :: _, EmptyString => String Csv.quotechar (String Csv.quotechar EmptyString)
  | _, _ => rec
  end.

(** [csv.field_size_limit()]: the longest field the reader takes.  The
    embedding of the reader has no such limit. *)
Definition field_size_limit : Z := 131072.

(** A record whose rating is in the range of [extract_rating] and whose
    columns are within the field size limit of the reader. *)
Definition within_limits (book : BookRow) : Prop :=
  (0 <= rating book <= 5)%Z
  /\ Forall (fun f => (Z.of_nat (String.length f) <= field_size_limit)%Z)
       (csv_row book).

(** The lines [print_sample_data] prints for the rows of a tabular file
    that holds [books], from row [i] on: the text of the file is read in
    the default mode, so a carriage return of a title or a price shows as a
    line feed. *)
Fixpoint sample_lines (i : nat) (limit : Z) (books : list BookRow) : list event :=
  match books with
  | [] => []
  | book :: rest =>
      if (Z.of_nat i >=? limit)%Z then []
      else Print (sample_line i (take 50 (Csv.translate_newlines (title book)))
                    (Csv.translate_newlines (price book))
                    (str_of_int (rating book)))
           :: sample_lines (S i) limit rest
  end.

(** The header line of the tabular file. *)
Definition header_line : string :=
  ("title,price,rating,availability,product_url,upc,category,description"
   ++ Csv.lineterminator)%string.

(** The rows of [books] in a database file; none when the file is not there. *)
Definition table (w : world) (filename : string) : list db_row :=
  match db w filename with
  | Some rows => rows
  | None => []
  end.

(* ================================================================== *)
(** * Theorems *)

(** ** Strings *)

Lemma append_nil_r (s : string) : (s ++ "")%string = s.
Proof. induction s; simpl; congruence. Qed.

Lemma append_assoc (a b c : string) :
  ((a ++ b) ++ c)%string = (a ++ (b ++ c))%string.
Proof. induction a; simpl; congruence. Qed.

Lemma prefix_iff (p s : string) :
  prefix p s = true <-> exists t, s = (p ++ t)%string.
Proof.
  revert s; induction p as [|a p IH]; intros s.
  - destruct s; simpl; split; eauto.
  - destruct s as [|b s]; simpl.
    + split; [discriminate | intros [t Ht]; discriminate].
    + destruct (ascii_dec a b) as [->|Hab].
      * rewrite IH. split; intros [t Ht]; exists t; congruence.
      * split; [discriminate | intros [t Ht]; congruence].
Qed.

Lemma contains_nil (sub : string) :
  contains sub "" = prefix sub "" || false.
Proof. reflexivity. Qed.

Lemma contains_cons (sub : string) (c : ascii) (s : string) :
  contains sub (String c s) = prefix sub (String c s) || contains sub s.
Proof. reflexivity. Qed.

Lemma contains_iff (sub s : string) :
  contains sub s = true <-> occurs sub s.
Proof.
  unfold occurs. induction s as [|c s IH].
  - rewrite contains_nil, orb_false_r, prefix_iff. split.
    + intros [t Ht]. exists EmptyString, t. exact Ht.
    + intros [pre [post H]]. destruct pre; simpl in H.
      * exists post; exact H.
      * discriminate.
  - rewrite contains_cons, orb_true_iff, prefix_iff, IH. split.
    + intros [[t Ht] | [pre [post H]]].
      * exists EmptyString, t. exact Ht.
      * exists (String c pre), post. simpl. congruence.
    + intros [pre [post H]]. destruct pre as [|c' pre]; simpl in H.
      * left. exists post. exact H.
      * right. exists pre, post. congruence.
Qed.

Lemma contains_false_iff (sub s : string) :
  contains sub s = false <-> ~ occurs sub s.
Proof.
  rewrite <- contains_iff. destruct (contains sub s); split; congruence.
Qed.

(** [int(str(n)) == n] *)
Lemma int_of_str_of_int (n : Z) : int_of_str (str_of_int n) = Some n.
Proof.
  unfold int_of_str, str_of_int. rewrite NilEmpty.isi. simpl.
  now rewrite DecimalZ.of_to.
Qed.

(** ** Rating *)

Lemma extract_rating_loop_zero (items : list (string * Z)) (s : string) :
  (forall w n, In (w, n) items -> n <> 0%Z) ->
  (extract_rating_loop items s = 0%Z <->
   forall w n, In (w, n) items -> ~ occurs (lower w) (lower s)).
Proof.
  induction items as [|[w n] items IH]; intros Hnz; simpl.
  - split; [intros _ w n [] | reflexivity].
  - destruct (contains (lower w) (lower s)) eqn:E.
    + split.
      * intros ->. exfalso. apply (Hnz w 0%Z); [now left | reflexivity].
      * intros H. exfalso. apply (H w n); [now left | now apply contains_iff].
    + rewrite IH by (intros w' n' Hin; apply (Hnz w' n'); now right).
      apply contains_false_iff in E.
      split.
      * intros H w' n' [Heq | Hin]; [congruence | now apply (H w' n')].
      * intros H w' n' Hin. apply (H w' n'). now right.
Qed.

Lemma extract_rating_loop_first (items : list (string * Z)) (s : string) :
  forall pre w n post,
    items = pre ++ (w, n) :: post ->
    occurs (lower w) (lower s) ->
    (forall w' n', In (w', n') pre -> ~ occurs (lower w') (lower s)) ->
    extract_rating_loop items s = n.
Proof.
  intros pre; revert items.
  induction pre as [|[w0 n0] pre IH]; intros items w n post -> Hocc Hpre; simpl.
  - apply contains_iff in Hocc. now rewrite Hocc.
  - assert (E : contains (lower w0) (lower s) = false).
    { apply contains_false_iff. apply (Hpre w0 n0). now left. }
    rewrite E. apply (IH _ w n post eq_refl Hocc).
    intros w' n' Hin. apply (Hpre w' n'). now right.
Qed.

Lemma extract_rating_loop_in (items : list (string * Z)) (s : string) :
  extract_rating_loop items s = 0%Z \/
  exists w, In (w, extract_rating_loop items s) items.
Proof.
  induction items as [|[w n] items IH]; simpl.
  - now left.
  - destruct (contains (lower w) (lower s)).
    + right. exists w. now left.
    + destruct IH as [IH | [w' IH]]; [now left | right; exists w'; now right].
Qed.

Ltac split_in H :=
  simpl in H;
  repeat match type of H with
         | _ \/ _ => destruct H as [H | H]
         | False => destruct H
         end.

(** C1 (as amended).  [extract_rating] maps each of the five words to its
    number; on any string it returns a number from 0 to 5: the number of the
    first word of the table whose lower-case form occurs in the lower-cased
    input, and 0 exactly when none of the five occurs. *)
Theorem extract_rating_table (rating_class : string) :
  (extract_rating "One" = 1 /\ extract_rating "Two" = 2
   /\ extract_rating "Three" = 3 /\ extract_rating "Four" = 4
   /\ extract_rating "Five" = 5)%Z
  /\ (0 <= extract_rating rating_class <= 5)%Z
  /\ (extract_rating rating_class = 0%Z <->
      forall word num, In (word, num) rating_map ->
                       ~ occurs (lower word) (lower rating_class))
  /\ (forall word num,
         In (word, num) rating_map ->
         occurs (lower word) (lower rating_class) ->
         (forall word' num', In (word', num') rating_map -> (num' < num)%Z ->
                             ~ occurs (lower word') (lower rating_class)) ->
         extract_rating rating_class = num).
Proof.
  split; [repeat split; reflexivity |].
  split.
  { unfold extract_rating.
    pose proof (extract_rating_loop_in rating_map rating_class) as H.
    set (r := extract_rating_loop rating_map rating_class) in *.
    destruct H as [H | [w Hin]]; [lia |].
    split_in Hin; injection Hin as _ Hr; lia. }
  split.
  { apply extract_rating_loop_zero.
    intros w n Hin. split_in Hin; injection Hin as _ <-; discriminate. }
  intros word num Hin Hocc Hfirst. unfold extract_rating.
  assert (Hdec : exists pre post,
             rating_map = pre ++ (word, num) :: post
             /\ forall w' n', In (w', n') pre ->
                              In (w', n') rating_map /\ (n' < num)%Z).
  { split_in Hin; injection Hin as <- <-.
    - exists [], (tl rating_map). split; [reflexivity | intros w' n' []].
    - exists (firstn 1 rating_map), (skipn 2 rating_map).
      split; [reflexivity |].
      intros w' n' H; split_in H; injection H as <- <-;
        (split; [simpl; tauto | lia]).
    - exists (firstn 2 rating_map), (skipn 3 rating_map).
      split; [reflexivity |].
      intros w' n' H; split_in H; injection H as <- <-;
        (split; [simpl; tauto | lia]).
    - exists (firstn 3 rating_map), (skipn 4 rating_map).
      split; [reflexivity |].
      intros w' n' H; split_in H; injection H as <- <-;
        (split; [simpl; tauto | lia]).
    - exists (firstn 4 rating_map), (skipn 5 rating_map).
      split; [reflexivity |].
      intros w' n' H; split_in H; injection H as <- <-;
        (split; [simpl; tauto | lia]). }
  destruct Hdec as [pre [post [Heq Hpre]]].
  apply (extract_rating_loop_first _ _ pre word num post Heq Hocc).
  intros w' n' Hin'. destruct (Hpre w' n' Hin') as [Hmap Hlt].
  now apply (Hfirst w' n').
Qed.

(** C1, as stated, fails: a string that is none of the five words
    (here the class attribute of a rating element) is not mapped to 0. *)
Lemma extract_rating_other_input :
  ~ In "star-rating Three" (map fst rating_map)
  /\ extract_rating "star-rating Three" = 3%Z.
Proof.
  split; [| reflexivity].
  intros H. split_in H; discriminate.
Qed.

(** ** Availability *)

Lemma span_digits_split (s : string) :
  s = (fst (span_digits s) ++ snd (span_digits s))%string
  /\ all_digits (fst (span_digits s)) = true.
Proof.
  induction s as [|c s [IH1 IH2]]; simpl.
  - now split.
  - destruct (is_digit c) eqn:E.
    + destruct (span_digits s) as [ds rest]; simpl in *.
      split; [congruence | now rewrite E].
    + now split.
Qed.

Lemma span_digits_app (ds : string) (c : ascii) (rest : string) :
  all_digits ds = true -> is_digit c = false ->
  span_digits (ds ++ String c rest) = (ds, String c rest).
Proof.
  intros Hds Hc. induction ds as [|d ds IH]; simpl in *.
  - now rewrite Hc.
  - apply andb_true_iff in Hds as [Hd Hds].
    now rewrite Hd, IH.
Qed.

Lemma match_count_here_cons (c : ascii) (rest : string) :
  match_count_here (String c rest) =
  if (c =? "(")%char then
    let (ds, rest') := span_digits rest in
    if (ds =? "")%string then None
    else if prefix " available)" rest' then Some ds else None
  else None.
Proof.
  destruct c as [[] [] [] [] [] [] [] []]; reflexivity.
Qed.

Lemma match_count_here_iff (s ds : string) :
  match_count_here s = Some ds <-> count_here ds s.
Proof.
  unfold count_here. destruct s as [|c rest].
  - split; [discriminate | intros [post [H _]]; discriminate].
  - rewrite match_count_here_cons.
    destruct (Ascii.eqb_spec c "(") as [-> | Hc].
    + destruct (span_digits_split rest) as [Hsplit Hall].
      destruct (span_digits rest) as [ds0 rest'] eqn:Hspan; simpl in *.
      split.
      * destruct (String.eqb_spec ds0 "") as [-> | Hne]; [discriminate |].
        destruct (prefix " available)" rest') eqn:Hp; [| discriminate].
        intros [= <-]. apply prefix_iff in Hp as [post ->].
        exists post. repeat split; [simpl; f_equal; exact Hsplit | assumption | assumption].
      * intros [post [Heq [Hne Hds]]].
        injection Heq as Heq.
        change (" available)" ++ post)%string
          with (String " " ("available)" ++ post)%string) in Heq.
        rewrite Heq, span_digits_app in Hspan by (assumption || reflexivity).
        injection Hspan as <- <-.
        destruct (String.eqb_spec ds "") as [-> | _]; [congruence |].
        match goal with
        | |- (if ?b then _ else _) = _ =>
            replace b with true
              by (symmetry; apply prefix_iff; exists post; reflexivity)
        end.
        reflexivity.
    + split; [discriminate |].
      intros [post [Heq _]]. injection Heq as Heq _. congruence.
Qed.

Lemma search_count_unfold (s : string) :
  search_count s =
  match match_count_here s with
  | Some ds => Some ds
  | None => match s with
            | EmptyString => None
            | String _ s' => search_count s'
            end
  end.
Proof. destruct s; reflexivity. Qed.

Lemma search_count_some (s ds : string) :
  search_count s = Some ds <-> first_count s ds.
Proof.
  split.
  - revert ds. induction s as [|c s IH]; intros ds; rewrite search_count_unfold.
    + destruct (match_count_here "") eqn:E; [| discriminate].
      intros [= <-]. constructor. now apply match_count_here_iff.
    + destruct (match_count_here (String c s)) eqn:E.
      * intros [= <-]. constructor. now apply match_count_here_iff.
      * intros H. apply first_count_later; [| now apply IH].
        intros ds' Hc. apply match_count_here_iff in Hc. congruence.
  - induction 1 as [s ds H | c s ds Hnone _ IH]; rewrite search_count_unfold.
    + apply match_count_here_iff in H. now rewrite H.
    + destruct (match_count_here (String c s)) eqn:E; [| exact IH].
      exfalso. apply (Hnone s0). now apply match_count_here_iff.
Qed.

Lemma first_count_occurs (s ds : string) :
  first_count s ds ->
  exists pre rest, s = (pre ++ rest)%string /\ count_here ds rest.
Proof.
  induction 1 as [s ds H | c s ds _ _ [pre [rest [-> H]]]].
  - exists EmptyString, s. now split.
  - exists (String c pre), rest. now split.
Qed.

Lemma search_count_none (s : string) :
  search_count s = None <-> no_count s.
Proof.
  unfold no_count. split.
  - induction s as [|c s IH]; rewrite search_count_unfold.
    + intros _ pre ds rest Heq [post [H _]].
      destruct pre; simpl in Heq; subst; discriminate.
    + destruct (match_count_here (String c s)) eqn:E; [discriminate |].
      intros Hs pre ds rest Heq Hc.
      destruct pre as [|c' pre]; simpl in Heq.
      * subst rest. apply match_count_here_iff in Hc. congruence.
      * injection Heq as _ Heq. exact (IH Hs pre ds rest Heq Hc).
  - intros Hno. destruct (search_count s) as [ds|] eqn:E; [| reflexivity].
    apply search_count_some, first_count_occurs in E as [pre [rest [Heq Hc]]].
    exfalso. exact (Hno pre ds rest Heq Hc).
Qed.



(** ** The listing extractor *)

Lemma rstrip_idem (s : string) : rstrip (rstrip s) = rstrip s.
Proof.
  induction s as [|c s IH]; simpl; [reflexivity |].
  destruct (rstrip s) as [|d r] eqn:E.
  - destruct (is_space c) eqn:Ec; simpl; [reflexivity | now rewrite Ec].
  - change (rstrip (String c (String d r)))
      with (match rstrip (String d r) with
            | EmptyString => if is_space c then EmptyString else String c EmptyString
            | r' => String c r'
            end).
    now rewrite IH.
Qed.

Lemma rstrip_head (c : ascii) (s : string) :
  is_space c = false -> exists r, rstrip (String c s) = String c r.
Proof.
  intros Hc. simpl. destruct (rstrip s); rewrite ?Hc; eauto.
Qed.

Lemma lstrip_head (s : string) :
  lstrip s = EmptyString
  \/ exists c r, lstrip s = String c r /\ is_space c = false.
Proof.
  induction s as [|c s IH]; simpl; [now left |].
  destruct (is_space c) eqn:E; [exact IH | right; eauto].
Qed.

(** [strip] returns a trimmed string. *)
Lemma strip_idem (s : string) : strip (strip s) = strip s.
Proof.
  unfold strip.
  destruct (lstrip_head s) as [-> | [c [r [-> Hc]]]]; [reflexivity |].
  destruct (rstrip_head c r Hc) as [r' Hr]. rewrite Hr.
  assert (Hl : lstrip (String c r') = String c r') by (simpl; now rewrite Hc).
  rewrite Hl, <- Hr. apply rstrip_idem.
Qed.

Section ListingFacts.

Variable urljoin : string -> string -> result string.

Lemma listing_loop (articles : list element) (base : string) :
  forall (acc : list BookRow) (w : world),
    fst (for_each articles acc
           (fun books article =>
              match parse_article urljoin article base with
              | Ok book => ret (books ++ [book])
              | Raise e => log WARNING (ErrorParsingBook e) ;; ret books
              end) w)
    = acc ++ flat_map (fun article =>
                         match parse_article urljoin article base with
                         | Ok book => [book]
                         | Raise _ => []
                         end) articles.
Proof.
  induction articles as [|a articles IH]; intros acc w; simpl.
  - now rewrite app_nil_r.
  - unfold bind at 1.
    destruct (parse_article urljoin a base) as [book | e]; simpl.
    + rewrite IH. now rewrite <- app_assoc.
    + unfold bind at 1. simpl. now rewrite IH.
Qed.

(** The records [scrape_book_listing] returns are those of the items that
    parse, in page order; the state of the world has no part in it. *)
Lemma scrape_book_listing_fst (soup : node) (base : string) (w : world) :
  fst (scrape_book_listing urljoin soup base w) = listing urljoin soup base.
Proof.
  unfold scrape_book_listing, listing. now rewrite listing_loop.
Qed.

Lemma parse_article_ok (article : element) (base : string) (book : BookRow) :
  parse_article urljoin article base = Ok book ->
  exists h3 title_link,
    find (is_tag "h3") article = Some h3
    /\ find (is_tag "a") h3 = Some title_link
    /\ title book = strip (get "title" "" title_link)
    /\ urljoin base (get "href" "" title_link) = Ok (product_url book)
    /\ upc book = None /\ category book = None /\ description book = None.
Proof.
  unfold parse_article.
  destruct (find (is_tag "h3") article) as [h3|] eqn:Eh3; [| discriminate].
  cbn [deref rbind].
  destruct (find (is_tag "a") h3) as [a|] eqn:Ea; [| discriminate].
  cbn [deref rbind].
  destruct (urljoin base (get "href" "" a)) as [u|] eqn:Eu; [| discriminate].
  cbn [rbind]. intros [= <-]. exists h3, a.
  cbn [title product_url upc category description]. repeat split; assumption.
Qed.


(** C10.  An item container whose heading link is found and whose URL
    joins is not skipped: the listing holds its record, with price ["N/A"]
    when the price element is absent and availability ["0"] when the
    availability element is absent. *)
Theorem listing_keeps_item (soup : node) (base : string) (w : world)
  (article h3 title_link : element) (url : string) :
  In article (product_pods soup) ->
  find (is_tag "h3") article = Some h3 ->
  find (is_tag "a") h3 = Some title_link ->
  urljoin base (get "href" "" title_link) = Ok url ->
  exists book,
    In book (fst (scrape_book_listing urljoin soup base w))
    /\ parse_article urljoin article base = Ok book
    /\ title book = strip (get "title" "" title_link)
    /\ product_url book = url
    /\ (find (fun n => is_tag "p" n && has_class "price_color" n) article = None ->
        price book = "N/A")
    /\ (find (fun n => is_tag "p" n && has_class "instock availability" n) article
        = None ->
        availability book = "0").
Proof.
  intros Hart Hh3 Ha Hurl.
  assert (E : exists book, parse_article urljoin article base = Ok book
                           /\ title book = strip (get "title" "" title_link)
                           /\ product_url book = url
                           /\ (find (fun n => is_tag "p" n && has_class "price_color" n)
                                 article = None -> price book = "N/A")
                           /\ (find (fun n => is_tag "p" n
                                              && has_class "instock availability" n)
                                 article = None -> availability book = "0")).
  { unfold parse_article. rewrite Hh3. cbn [deref rbind]. rewrite Ha.
    cbn [deref rbind]. rewrite Hurl. cbn [rbind].
    eexists. split; [reflexivity |]. cbn [title product_url price availability].
    repeat split.
    - intros ->. reflexivity.
    - intros ->. reflexivity. }
  destruct E as [book [E Hrest]]. exists book.
  split; [| now split].
  rewrite scrape_book_listing_fst. unfold listing.
  apply in_flat_map. exists article. split; [assumption |].
  rewrite E. now left.
Qed.

End ListingFacts.

(** For the catalogue base, [urljoin_plain] gives absolute URLs. *)
Lemma urljoin_plain_absolute (rel url : string) :
  urljoin_plain base_url rel = Ok url -> is_absolute url = true.
Proof.
  unfold urljoin_plain. destruct (rel =? "")%string; intros [= <-]; reflexivity.
Qed.



(** An item with neither price nor availability element. *)
Lemma listing_keeps_item_sample :
  let article : element := (pod_bare, []) in
  let h3 : element := (pod_heading bare_attrs, []) in
  let title_link : element := (pod_link bare_attrs, []) in
  let page := page_of [pod_bare] in
  exists book,
    In book (fst (scrape_book_listing urljoin_plain page base_url offline))
    /\ parse_article urljoin_plain article base_url = Ok book
    /\ title book = strip (get "title" "" title_link)
    /\ product_url book = "https://books.toscrape.com/catalogue/bare_2/index.html"
    /\ (find (fun n => is_tag "p" n && has_class "price_color" n) article = None ->
        price book = "N/A")
    /\ (find (fun n => is_tag "p" n && has_class "instock availability" n) article
        = None ->
        availability book = "0").
Proof.
  intros article h3 title_link page.
  apply (listing_keeps_item urljoin_plain page base_url offline article h3 title_link).
  - vm_compute. left. reflexivity.
  - reflexivity.
  - reflexivity.
  - reflexivity.
Defined.

(** ** Runs and their events *)

Lemma after_nil (w : world) : after w [] = w.
Proof.
  unfold after. destruct w; simpl. now rewrite Nat.add_0_r, app_nil_r.
Qed.

Lemma gets_app (a b : list event) : gets (a ++ b) = gets a ++ gets b.
Proof. unfold gets. apply flat_map_app. Qed.

Lemma sleeps_app (a b : list event) : sleeps (a ++ b) = sleeps a ++ sleeps b.
Proof. unfold sleeps. apply flat_map_app. Qed.

Lemma after_after (w : world) (a b : list event) :
  after (after w a) b = after w (a ++ b).
Proof.
  unfold after; simpl. rewrite gets_app, length_app, app_assoc. f_equal. lia.
Qed.

Lemma new_events_after (w : world) (evs : list event) :
  new_events w (after w evs) = evs.
Proof.
  unfold new_events, after; simpl.
  rewrite skipn_app, skipn_all, Nat.sub_diag. reflexivity.
Qed.

Lemma emit_after (e : event) (w : world) :
  match e with HttpGet _ => False | _ => True end ->
  emit e w = (tt, after w [e]).
Proof.
  intros He. unfold emit, after. destruct e; try contradiction; simpl;
    now rewrite Nat.add_0_r.
Qed.

Lemma log_after (lvl : level) (m : message) (w : world) :
  log lvl m w = (tt, after w [Log lvl m]).
Proof. now apply emit_after. Qed.

Lemma sleep_after (p : pause) (w : world) :
  sleep p w = (tt, after w [Sleep p]).
Proof. now apply emit_after. Qed.

Lemma print_after (line : string) (w : world) :
  print line w = (tt, after w [Print line]).
Proof. now apply emit_after. Qed.

Lemma session_get_after (url : string) (w : world) :
  session_get url w = (net w (nreq w) url, after w [HttpGet url]).
Proof.
  unfold session_get, after; simpl. now rewrite Nat.add_1_r.
Qed.

Lemma all_fail_after (w : world) (evs : list event) :
  all_fail w -> all_fail (after w evs).
Proof.
  unfold all_fail, after; simpl. intros H k url Hk. apply H. lia.
Qed.

Lemma range_nil (lo hi : Z) : (hi <= lo)%Z -> range lo hi = [].
Proof.
  intros H. unfold range. replace (Z.to_nat (hi - lo)) with 0 by lia. reflexivity.
Qed.

Lemma range_cons (lo hi : Z) :
  (lo < hi)%Z -> range lo hi = lo :: range (lo + 1) hi.
Proof.
  intros H. unfold range.
  replace (Z.to_nat (hi - lo)) with (S (Z.to_nat (hi - (lo + 1)))) by lia.
  rewrite <- cons_seq, <- seq_shift, map_cons, map_map. f_equal.
  - f_equal. lia.
  - apply map_ext. intros k. lia.
Qed.

Lemma range_length (lo hi : Z) : List.length (range lo hi) = Z.to_nat (hi - lo).
Proof. unfold range. now rewrite length_map, length_seq. Qed.

(** ** The page fetcher *)

Ltac run_step :=
  unfold bind at 1;
  first [ rewrite log_after | rewrite sleep_after | rewrite session_get_after
        | rewrite print_after ].

(** When every request fails, [get_page] goes through all the attempts
    that are left and gives [None]. *)
Lemma get_page_loop_all_fail (url : string) (max_retries : Z) (n : nat) :
  forall (attempt : Z) (w : world),
    n = Z.to_nat (max_retries - attempt) ->
    (0 <= attempt)%Z ->
    all_fail w ->
    get_page_loop url max_retries (range attempt max_retries) w
    = (None, after w (flat_map (failed_attempt url max_retries)
                        (range attempt max_retries))).
Proof.
  induction n as [|n IH]; intros attempt w Hn Hpos Hfail.
  - rewrite range_nil by lia. simpl. now rewrite after_nil.
  - rewrite range_cons by lia. cbn [get_page_loop flat_map].
    run_step. run_step.
    rewrite (all_fail_after w _ Hfail) by lia.
    run_step. unfold failed_attempt at 1.
    destruct (attempt <? max_retries - 1)%Z eqn:E.
    + run_step. rewrite IH; [| lia | lia |].
      * rewrite !after_after. reflexivity.
      * now repeat apply all_fail_after.
    + run_step. unfold ret. rewrite range_nil by lia.
      rewrite !after_after. cbn [flat_map]. now rewrite app_nil_r.
Qed.

Lemma gets_failed_attempts (url : string) (m : Z) (l : list Z) :
  gets (flat_map (failed_attempt url m) l) = repeat url (List.length l).
Proof.
  induction l as [|a l IH]; [reflexivity |].
  cbn [flat_map]. rewrite gets_app, IH. unfold failed_attempt.
  destruct (a <? m - 1)%Z; reflexivity.
Qed.

Lemma sleeps_failed_attempts (url : string) (m : Z) (n : nat) :
  forall a : Z,
    n = Z.to_nat (m - a) ->
    sleeps (flat_map (failed_attempt url m) (range a m))
    = map (fun k => Seconds (2 ^ k)) (range a (m - 1)).
Proof.
  induction n as [|n IH]; intros a Hn.
  - now rewrite !range_nil by lia.
  - rewrite (range_cons a m) by lia. cbn [flat_map].
    rewrite sleeps_app, (IH (a + 1)%Z) by lia. unfold failed_attempt.
    destruct (a <? m - 1)%Z eqn:E.
    + rewrite (range_cons a (m - 1)) by lia. reflexivity.
    + rewrite (range_nil a (m - 1)), (range_nil (a + 1) (m - 1)) by lia.
      reflexivity.
Qed.

Lemma get_page_all_fail (url : string) (max_retries : Z) (w : world) :
  all_fail w ->
  get_page url max_retries w
  = (None, after w (flat_map (failed_attempt url max_retries) (range 0 max_retries))).
Proof.
  intros Hfail. unfold get_page.
  destruct (Z.le_gt_cases max_retries 0) as [Hle | Hgt].
  - rewrite range_nil by lia. simpl. now rewrite after_nil.
  - now apply (get_page_loop_all_fail url max_retries
                 (Z.to_nat (max_retries - 0)) 0%Z w).
Qed.

Section FetchFailure.

Variable urljoin : string -> string -> result string.

Lemma scrape_page_skip (deep : bool) (all_books : list BookRow) (page_num : Z)
  (w : world) :
  fst (get_page (page_url page_num) default_max_retries
         (after w [Log INFO (CrawlingPage page_num)])) = None ->
  fst (scrape_page urljoin deep all_books page_num w) = all_books.
Proof.
  intros H. unfold scrape_page. run_step. unfold bind at 1.
  destruct (get_page _ _ _) as [[soup|] w']; [discriminate |].
  run_step. reflexivity.
Qed.

Lemma scrape_page_all_fail (deep : bool) (all_books : list BookRow) (page_num : Z)
  (w : world) :
  all_fail w ->
  scrape_page urljoin deep all_books page_num w
  = (all_books, after w (skipped_page page_num)).
Proof.
  intros Hfail. unfold scrape_page. run_step. unfold bind at 1.
  rewrite get_page_all_fail by now apply all_fail_after.
  run_step. unfold ret, skipped_page. now rewrite !after_after.
Qed.

Lemma crawl_all_fail (deep : bool) (pages : list Z) :
  forall (all_books : list BookRow) (w : world),
    all_fail w ->
    for_each pages all_books (scrape_page urljoin deep) w
    = (all_books, after w (flat_map skipped_page pages)).
Proof.
  induction pages as [|p pages IH]; intros all_books w Hfail; cbn [for_each flat_map].
  - unfold ret. now rewrite after_nil.
  - unfold bind at 1. rewrite scrape_page_all_fail by assumption.
    rewrite IH by now apply all_fail_after.
    now rewrite after_after.
Qed.

(** C5.  With [max_retries >= 1] and every request failing, [get_page]
    makes exactly [max_retries] requests, sleeps [2 ^ attempt] seconds after
    each failed attempt but the last (its events are those of
    [failed_attempt], attempt by attempt), and returns [None]; the crawl loop
    takes a [None] as a skip of the page: the books gathered so far are
    kept as they are, and [scrape_books] returns (the empty list when every
    request fails). *)
Theorem fetch_failure_is_a_skip (url : string) (max_retries : Z) (w : world)
  (deep : bool) (all_books : list BookRow) (page_num : Z) :
  (1 <= max_retries)%Z ->
  all_fail w ->
  fst (get_page url max_retries w) = None
  /\ new_events w (snd (get_page url max_retries w))
     = flat_map (failed_attempt url max_retries) (range 0 max_retries)
  /\ gets (new_events w (snd (get_page url max_retries w)))
     = repeat url (Z.to_nat max_retries)
  /\ sleeps (new_events w (snd (get_page url max_retries w)))
     = map (fun attempt => Seconds (2 ^ attempt)) (range 0 (max_retries - 1))
  /\ fst (scrape_page urljoin deep all_books page_num w) = all_books
  /\ (forall w0 : world,
         fst (get_page (page_url page_num) default_max_retries
                (after w0 [Log INFO (CrawlingPage page_num)])) = None ->
         fst (scrape_page urljoin deep all_books page_num w0) = all_books)
  /\ (forall max_pages : Z,
         fst (scrape_books urljoin max_pages deep w) = []).
Proof.
  intros Hm Hfail. rewrite get_page_all_fail by assumption. cbn [fst snd].
  rewrite new_events_after.
  split; [reflexivity |].
  split; [reflexivity |].
  split.
  { rewrite gets_failed_attempts, range_length. f_equal. lia. }
  split.
  { apply (sleeps_failed_attempts url max_retries (Z.to_nat (max_retries - 0))).
    reflexivity. }
  split.
  { now rewrite scrape_page_all_fail. }
  split.
  { intros w0. apply scrape_page_skip. }
  intros max_pages. unfold scrape_books. unfold bind at 1.
  rewrite crawl_all_fail by assumption. run_step. reflexivity.
Qed.

End FetchFailure.

Lemma offline_all_fail : all_fail offline.
Proof. intros k url _. reflexivity. Qed.

(** Three attempts against a site that does not answer. *)
Lemma fetch_failure_is_a_skip_sample :
  fst (get_page "https://books.toscrape.com/" 3 offline) = None
  /\ new_events offline (snd (get_page "https://books.toscrape.com/" 3 offline))
     = flat_map (failed_attempt "https://books.toscrape.com/" 3) (range 0 3)
  /\ gets (new_events offline (snd (get_page "https://books.toscrape.com/" 3 offline)))
     = repeat "https://books.toscrape.com/" (Z.to_nat 3)
  /\ sleeps (new_events offline (snd (get_page "https://books.toscrape.com/" 3 offline)))
     = map (fun attempt => Seconds (2 ^ attempt)) (range 0 (3 - 1))
  /\ fst (scrape_page urljoin_plain true [] 1 offline) = []
  /\ (forall w0 : world,
         fst (get_page (page_url 1) default_max_retries
                (after w0 [Log INFO (CrawlingPage 1)])) = None ->
         fst (scrape_page urljoin_plain true [] 1 w0) = [])
  /\ (forall max_pages : Z,
         fst (scrape_books urljoin_plain max_pages true offline) = []).
Proof.
  apply (fetch_failure_is_a_skip urljoin_plain "https://books.toscrape.com/" 3
           offline true [] 1).
  - lia.
  - exact offline_all_fail.
Defined.

(** ** The detail extractor *)

Lemma extract_detail_raise (soup : node) (e : exn) :
  extract_detail soup = Raise e <->
  extract_upc soup = Raise e
  \/ (exists u, extract_upc soup = Ok u) /\ extract_category soup = Raise e
  \/ (exists u c, extract_upc soup = Ok u /\ extract_category soup = Ok c)
     /\ extract_description soup = Raise e.
Proof.
  unfold extract_detail.
  destruct (extract_upc soup) as [u | e1]; cbn [rbind].
  - destruct (extract_category soup) as [c | e2]; cbn [rbind].
    + destruct (extract_description soup) as [d | e3]; cbn [rbind].
      * split; [discriminate |].
        intros [H | [[_ H] | [_ H]]]; discriminate.
      * split.
        -- intros [= <-]. right. right. split; [exists u, c |]; tauto.
        -- intros [H | [[_ H] | [_ H]]]; try discriminate. now injection H as ->.
    + split.
      * intros [= <-]. right. left. split; [exists u |]; tauto.
      * intros [H | [[_ H] | [[u' [c' [_ H']]] _]]]; try discriminate. now injection H as ->.
  - split.
    + intros [= <-]. now left.
    + intros [H | [[[u H'] _] | [[u' [c' [H' _]]] _]]]; try discriminate. now injection H as ->.
Qed.

Lemma extract_detail_ok (soup : node) (u c d : option string) :
  extract_detail soup = Ok (u, c, d) <->
  extract_upc soup = Ok u /\ extract_category soup = Ok c
  /\ extract_description soup = Ok d.
Proof.
  unfold extract_detail.
  destruct (extract_upc soup) as [u' | e1]; cbn [rbind];
    [| split; [discriminate | intros [H _]; discriminate]].
  destruct (extract_category soup) as [c' | e2]; cbn [rbind];
    [| split; [discriminate | intros [_ [H _]]; discriminate]].
  destruct (extract_description soup) as [d' | e3]; cbn [rbind];
    [| split; [discriminate | intros [_ [_ H]]; discriminate]].
  split.
  - intros [= <- <- <-]. tauto.
  - intros [[= <-] [[= <-] [= <-]]]. reflexivity.
Qed.

(** C2 (as amended).  The detail extractor catches an extraction exception
    at the scope of the whole enrichment, not of the field that failed:
    when the product page is fetched and the extraction of any of the three
    fields raises, nothing is propagated and the record is returned as it
    came in, with none of its fields set, also those already read from the
    page; only when all three extractions succeed are the three fields
    set. *)
Theorem detail_exception_scope (book : BookRow) (w : world) (soup : node) :
  fst (get_page (product_url book) default_max_retries w) = Some soup ->
  (forall e,
      (extract_upc soup = Raise e
       \/ (exists u, extract_upc soup = Ok u) /\ extract_category soup = Raise e
       \/ (exists u c, extract_upc soup = Ok u /\ extract_category soup = Ok c)
          /\ extract_description soup = Raise e) ->
      fst (scrape_book_detail book w) = book)
  /\ (forall u c d,
         extract_upc soup = Ok u -> extract_category soup = Ok c ->
         extract_description soup = Ok d ->
         fst (scrape_book_detail book w)
         = mkBookRow (title book) (price book) (rating book) (availability book)
             (product_url book) u c d).
Proof.
  intros Hget. unfold scrape_book_detail. unfold bind at 1. unfold bind at 2.
  destruct (get_page (product_url book) default_max_retries w) as [r w'].
  cbn [fst] in Hget. subst r. split.
  - intros e He. apply extract_detail_raise in He. rewrite He.
    unfold bind at 1. now destruct (log _ _ w').
  - intros u c d Hu Hc Hd.
    assert (H : extract_detail soup = Ok (u, c, d)) by now apply extract_detail_ok.
    now rewrite H.
Qed.

(** A product page whose breadcrumb is missing. *)
Lemma detail_exception_scope_sample :
  fst (scrape_book_detail light_in_the_attic (serving product_page_no_breadcrumb))
  = light_in_the_attic.
Proof.
  destruct (detail_exception_scope light_in_the_attic
              (serving product_page_no_breadcrumb) product_page_no_breadcrumb)
    as [H _]; [reflexivity |].
  apply (H AttributeError). right. left.
  split; [eexists |]; reflexivity.
Defined.

(** C2, as stated, fails: the UPC is read from the page, the category
    raises, and the record comes back without the UPC. *)
Lemma detail_drops_extracted_upc :
  fst (get_page (product_url light_in_the_attic) default_max_retries
         (serving product_page_no_breadcrumb))
  = Some product_page_no_breadcrumb
  /\ extract_upc product_page_no_breadcrumb = Ok (Some "a897fe39b1053632")
  /\ extract_category product_page_no_breadcrumb = Raise AttributeError
  /\ upc (fst (scrape_book_detail light_in_the_attic
                 (serving product_page_no_breadcrumb))) = None.
Proof. repeat split. Qed.

(** The detail extractor leaves the fields of the listing alone. *)
Lemma scrape_book_detail_same_item (book : BookRow) (w : world) :
  same_item book (fst (scrape_book_detail book w)).
Proof.
  unfold scrape_book_detail. unfold bind at 1.
  destruct (get_page (product_url book) default_max_retries w) as [[soup|] w'].
  - destruct (extract_detail soup) as [[[u c] d] | e].
    + cbn. repeat split.
    + unfold bind at 1. destruct (log _ _ w') as [[] w'']. cbn. repeat split.
  - cbn. repeat split.
Qed.



(** ** The crawl loop *)

Lemma marks_app (a b : list event) : marks (a ++ b) = marks a ++ marks b.
Proof. unfold marks. apply flat_map_app. Qed.

Lemma quiet_ret {A} (a : A) : quiet (ret a).
Proof. intros w. exists []. now rewrite after_nil. Qed.

Lemma quiet_bind {A B} (m : M A) (k : A -> M B) :
  quiet m -> (forall a, quiet (k a)) -> quiet (bind m k).
Proof.
  intros Hm Hk w. unfold bind.
  destruct (Hm w) as [e1 [E1 M1]]. rewrite E1.
  destruct (Hk (fst (m w)) (after w e1)) as [e2 [E2 M2]].
  exists (e1 ++ e2). rewrite E2 at 1. cbn [fst].
  rewrite after_after, marks_app, M1, M2. now split.
Qed.

Lemma quiet_log (lvl : level) (m : message) :
  match m with CrawlingPage _ => False | _ => True end -> quiet (log lvl m).
Proof.
  intros Hm w. exists [Log lvl m]. rewrite log_after. split; [reflexivity |].
  destruct lvl, m; try reflexivity; contradiction.
Qed.

Lemma quiet_sleep (p : pause) : quiet (sleep p).
Proof. intros w. exists [Sleep p]. now rewrite sleep_after. Qed.

Lemma quiet_session_get (url : string) : quiet (session_get url).
Proof. intros w. exists [HttpGet url]. now rewrite session_get_after. Qed.

Lemma quiet_for_each {A S} (xs : list A) (body : S -> A -> M S) :
  (forall acc x, quiet (body acc x)) ->
  forall acc, quiet (for_each xs acc body).
Proof.
  intros Hbody. induction xs as [|x xs IH]; intros acc; cbn [for_each].
  - apply quiet_ret.
  - apply quiet_bind; [apply Hbody | intros acc'; apply IH].
Qed.

Ltac quiet_tac :=
  repeat first
    [ apply quiet_ret
    | apply quiet_sleep
    | apply quiet_session_get
    | apply quiet_log; exact I
    | apply quiet_bind; [| intros ? ]
    | match goal with
      | |- quiet (match ?x with _ => _ end) => destruct x
      | |- quiet (if ?x then _ else _) => destruct x
      | |- quiet (let (_, _) := ?x in _) => destruct x
      end ].

Lemma quiet_get_page (url : string) (max_retries : Z) :
  quiet (get_page url max_retries).
Proof.
  unfold get_page. generalize (range 0 max_retries) as attempts.
  induction attempts as [|a attempts IH]; cbn [get_page_loop]; quiet_tac.
  exact IH.
Qed.

Lemma quiet_scrape_book_detail (book : BookRow) : quiet (scrape_book_detail book).
Proof.
  unfold scrape_book_detail.
  apply quiet_bind; [apply quiet_get_page | intros soup]. quiet_tac.
Qed.

Section CrawlFacts.

Variable urljoin : string -> string -> result string.

Lemma quiet_scrape_book_listing (soup : node) (base : string) :
  quiet (scrape_book_listing urljoin soup base).
Proof.
  unfold scrape_book_listing. apply quiet_for_each.
  intros acc x. quiet_tac.
Qed.

Lemma quiet_fetch_details (books : list BookRow) : quiet (fetch_details books).
Proof.
  unfold fetch_details. apply quiet_bind; [apply quiet_log; exact I | intros _].
  apply quiet_for_each. intros acc [i book].
  apply quiet_bind; [apply quiet_log; exact I | intros _].
  apply quiet_bind; [apply quiet_scrape_book_detail | intros b; apply quiet_ret].
Qed.

(** A turn of the loop opens with its mark and has no other. *)
Lemma scrape_page_marks (deep : bool) (all_books : list BookRow) (page_num : Z)
  (w : world) :
  exists evs,
    scrape_page urljoin deep all_books page_num w
    = (fst (scrape_page urljoin deep all_books page_num w), after w evs)
    /\ marks evs = [page_num].
Proof.
  set (rest := soup <- get_page (page_url page_num) default_max_retries ;;
               match soup with
               | Some soup0 =>
                   books <- scrape_book_listing urljoin soup0 base_url ;;
                   log INFO (FoundBooks (List.length books) page_num) ;;
                   books0 <- (if deep then fetch_details books else ret books) ;;
                   ret (all_books ++ books0)
               | None => log ERROR (FailedPage page_num) ;; ret all_books
               end).
  assert (Hrun : scrape_page urljoin deep all_books page_num w
                 = rest (after w [Log INFO (CrawlingPage page_num)])).
  { unfold scrape_page. run_step. reflexivity. }
  assert (Q : quiet rest).
  { apply quiet_bind; [apply quiet_get_page | intros [soup|]].
    - apply quiet_bind; [apply quiet_scrape_book_listing | intros books].
      apply quiet_bind; [apply quiet_log; exact I | intros _].
      apply quiet_bind; [| intros b; apply quiet_ret].
      destruct deep; [apply quiet_fetch_details | apply quiet_ret].
    - quiet_tac. }
  rewrite Hrun.
  destruct (Q (after w [Log INFO (CrawlingPage page_num)])) as [evs [E Hm]].
  exists ([Log INFO (CrawlingPage page_num)] ++ evs).
  split; [| now rewrite marks_app, Hm].
  rewrite <- after_after. exact E.
Qed.

(** Right after its mark a turn makes its listing fetch: the first
    attempt of [get_page] on the URL of the page. *)
Lemma scrape_page_opens (deep : bool) (all_books : list BookRow) (page_num : Z)
  (w : world) :
  exists evs,
    snd (scrape_page urljoin deep all_books page_num w)
    = after w ([Log INFO (CrawlingPage page_num);
                Log INFO (Fetching (page_url page_num) 1);
                HttpGet (page_url page_num)] ++ evs)
    /\ marks evs = [].
Proof.
  assert (Q : forall r : option node,
             quiet (soup <- match r with
                            | Some soup => sleep Delay ;; ret (Some soup)
                            | None =>
                                log WARNING (AttemptFailed (0 + 1)) ;;
                                if (0 <? default_max_retries - 1)%Z then
                                  sleep (Seconds (2 ^ 0)) ;;
                                  get_page_loop (page_url page_num)
                                    default_max_retries [1%Z; 2%Z]
                                else
                                  log ERROR (FailedToFetch (page_url page_num)
                                               default_max_retries) ;;
                                  ret None
                            end ;;
                    match soup with
                    | Some soup0 =>
                        books <- scrape_book_listing urljoin soup0 base_url ;;
                        log INFO (FoundBooks (List.length books) page_num) ;;
                        books0 <- (if deep then fetch_details books
                                   else ret books) ;;
                        ret (all_books ++ books0)
                    | None => log ERROR (FailedPage page_num) ;; ret all_books
                    end)).
  { intros r. apply quiet_bind.
    - destruct r; quiet_tac.
    - intros [soup|].
      + apply quiet_bind; [apply quiet_scrape_book_listing | intros books].
        apply quiet_bind; [apply quiet_log; exact I | intros _].
        apply quiet_bind; [| intros b; apply quiet_ret].
        destruct deep; [apply quiet_fetch_details | apply quiet_ret].
      + quiet_tac. }
  unfold scrape_page. run_step. unfold bind at 1. unfold get_page.
  change (range 0 default_max_retries) with [0%Z; 1%Z; 2%Z].
  cbn [get_page_loop]. run_step. run_step. rewrite !after_after. cbn [app].
  match goal with
  | |- context [net ?w0 ?k ?u] => set (r := net w0 k u)
  end.
  match goal with
  | |- context [after w ?pre] => set (pre0 := pre)
  end.
  destruct (Q r (after w pre0)) as [evs [E Hm]].
  exists evs. split; [| exact Hm].
  match type of E with
  | ?run = _ => transitivity (snd run); [reflexivity |]
  end.
  rewrite E. cbn [snd]. now rewrite after_after.
Qed.

Lemma crawl_marks (deep : bool) (pages : list Z) :
  forall (all_books : list BookRow) (w : world),
  exists evs,
    for_each pages all_books (scrape_page urljoin deep) w
    = (fst (for_each pages all_books (scrape_page urljoin deep) w), after w evs)
    /\ marks evs = pages.
Proof.
  induction pages as [|p pages IH]; intros all_books w; cbn [for_each].
  - exists []. unfold ret. now rewrite after_nil.
  - unfold bind.
    destruct (scrape_page_marks deep all_books p w) as [e1 [E1 M1]].
    rewrite E1.
    destruct (IH (fst (scrape_page urljoin deep all_books p w)) (after w e1))
      as [e2 [E2 M2]].
    exists (e1 ++ e2). rewrite E2 at 1. cbn [fst].
    rewrite after_after, marks_app, M1, M2. now split.
Qed.

End CrawlFacts.

Lemma set_item_app {A} (done rest : list A) (old new : A) :
  set_item (done ++ old :: rest) (List.length done) new = done ++ new :: rest.
Proof.
  induction done as [|d done IH]; simpl; [reflexivity | now rewrite IH].
Qed.

Lemma Forall2_same_length {A B} (R : A -> B -> Prop) (l : list A) (l' : list B) :
  Forall2 R l l' -> List.length l = List.length l'.
Proof. induction 1; simpl; congruence. Qed.

(** The loop of the [if deep:] block replaces every book of the page, in
    order, by what the detail extractor makes of it. *)
Lemma fetch_details_loop (rest : list BookRow) :
  forall (done : list BookRow) (w : world),
  exists out,
    fst (for_each (combine (seq (List.length done) (List.length rest)) rest)
           (done ++ rest)
           (fun books' ib =>
              let (i, book) := ib : nat * BookRow in
              log INFO (FetchingDetailsFor (i + 1) (List.length books') (title book)) ;;
              book' <- scrape_book_detail book ;;
              ret (set_item books' i book')) w)
    = done ++ out
    /\ Forall2 enriched rest out.
Proof.
  induction rest as [|b rest IH]; intros done w.
  - exists []. split; [reflexivity | constructor].
  - cbn [List.length seq combine for_each].
    unfold bind at 1. unfold bind at 1.
    destruct (log INFO _ w) as [[] w1].
    unfold bind at 1.
    destruct (scrape_book_detail b w1) as [b' w2] eqn:E.
    unfold ret at 1. rewrite set_item_app.
    destruct (IH (done ++ [b']) w2) as [out [Hout Hrel]].
    rewrite length_app, Nat.add_1_r, <- app_assoc in Hout. cbn [app] in Hout.
    exists (b' :: out). split.
    + rewrite Hout. now rewrite <- app_assoc.
    + constructor; [| exact Hrel]. exists w1. now rewrite E.
Qed.

Lemma fetch_details_enriched (books : list BookRow) (w : world) :
  Forall2 enriched books (fst (fetch_details books w)).
Proof.
  unfold fetch_details, enumerate. unfold bind at 1.
  destruct (log INFO FetchingDetailed w) as [[] w1].
  destruct (fetch_details_loop books [] w1) as [out [Hout Hrel]].
  cbn [List.length app] in Hout. now rewrite Hout.
Qed.

Section CrawlResult.

Variable urljoin : string -> string -> result string.

(** The books gathered before a turn are kept, and have no part in it. *)
Lemma scrape_page_acc (deep : bool) (all_books : list BookRow) (page_num : Z)
  (w : world) :
  scrape_page urljoin deep all_books page_num w
  = (all_books ++ fst (scrape_page urljoin deep [] page_num w),
     snd (scrape_page urljoin deep [] page_num w)).
Proof.
  unfold scrape_page, bind.
  destruct (log INFO (CrawlingPage page_num) w) as [[] w1].
  destruct (get_page (page_url page_num) default_max_retries w1) as [[soup|] w2].
  - destruct (scrape_book_listing urljoin soup base_url w2) as [books w3].
    destruct (log INFO (FoundBooks (List.length books) page_num) w3) as [[] w4].
    destruct ((if deep then fetch_details books else ret books) w4) as [books' w5].
    reflexivity.
  - destruct (log ERROR (FailedPage page_num) w2) as [[] w3].
    unfold ret; cbn. now rewrite app_nil_r.
Qed.

(** What a turn adds, against what the listing extractor finds on its page. *)
Lemma scrape_page_books (deep : bool) (page_num : Z) (w : world)
  (books : list BookRow) :
  books = fst (scrape_page urljoin deep [] page_num w) ->
  if deep
  then Forall2 enriched (pr_listing urljoin (mkRun page_num w books)) books
  else books = pr_listing urljoin (mkRun page_num w books).
Proof.
  unfold pr_listing, pr_fetch. cbn [pr_num pr_world pr_books].
  unfold scrape_page. run_step. unfold bind at 1.
  destruct (get_page (page_url page_num) default_max_retries
              (after w [Log INFO (CrawlingPage page_num)])) as [[soup|] w2];
    cbn [fst].
  - unfold bind at 1.
    pose proof (scrape_book_listing_fst urljoin soup base_url w2) as Hl.
    destruct (scrape_book_listing urljoin soup base_url w2) as [found w3].
    cbn [fst] in Hl. subst found.
    unfold bind at 1.
    destruct (log INFO _ w3) as [[] w4].
    unfold bind at 1. destruct deep.
    + pose proof (fetch_details_enriched (listing urljoin soup base_url) w4) as H.
      destruct (fetch_details (listing urljoin soup base_url) w4) as [books' w5].
      intros ->. exact H.
    + intros ->. reflexivity.
  - unfold bind at 1. destruct (log ERROR _ w2) as [[] w3].
    intros ->. destruct deep; [constructor | reflexivity].
Qed.

Lemma crawl_concat (deep : bool) (pages : list Z) :
  forall (all_books : list BookRow) (w : world),
    fst (for_each pages all_books (scrape_page urljoin deep) w)
    = all_books ++ List.concat (map pr_books (page_runs urljoin deep pages w)).
Proof.
  induction pages as [|p pages IH]; intros all_books w; cbn [for_each page_runs].
  - cbn. now rewrite app_nil_r.
  - unfold bind at 1. rewrite scrape_page_acc.
    destruct (scrape_page urljoin deep [] p w) as [books w'].
    cbn [fst snd map List.concat pr_books]. rewrite IH. now rewrite app_assoc.
Qed.

Lemma page_runs_nums (deep : bool) (pages : list Z) :
  forall w, map pr_num (page_runs urljoin deep pages w) = pages.
Proof.
  induction pages as [|p pages IH]; intros w; cbn [page_runs]; [reflexivity |].
  destruct (scrape_page urljoin deep [] p w) as [books w'].
  cbn. now rewrite IH.
Qed.

Lemma page_runs_books (deep : bool) (pages : list Z) :
  forall w,
    Forall (fun r => if deep
                     then Forall2 enriched (pr_listing urljoin r) (pr_books r)
                     else pr_books r = pr_listing urljoin r)
           (page_runs urljoin deep pages w).
Proof.
  induction pages as [|p pages IH]; intros w; cbn [page_runs]; [constructor |].
  pose proof (fun books => scrape_page_books deep p w books) as H.
  destruct (scrape_page urljoin deep [] p w) as [books w'].
  constructor; [exact (H books eq_refl) | apply IH].
Qed.


End CrawlResult.


(** A crawl of one page with two items. *)
Example scrape_books_one_page :
  map (fun b => (title b, rating b, availability b, price b))
    (fst (scrape_books urljoin_plain 1 false (serving (page_of [pod_full; pod_bare]))))
  = [("A Light in the Attic", 3%Z, "22", "£51.77"); ("Bare", 0%Z, "0", "N/A")].
Proof. vm_compute. reflexivity. Qed.

(** ** The command line *)

Section MainFacts.

Variable urljoin : string -> string -> result string.

Lemma scrape_books_after (n : Z) (d : bool) (w : world) :
  exists evs,
    scrape_books urljoin n d w = (fst (scrape_books urljoin n d w), after w evs).
Proof.
  unfold scrape_books. unfold bind at 1. unfold bind at 2.
  destruct (crawl_marks urljoin d (range 1 (n + 1)) [] w) as [evs [E _]].
  rewrite E. run_step. unfold bind at 1. rewrite log_after. unfold ret. cbn [fst].
  rewrite after_after. eauto.
Qed.

(** [main] has no [sys.exit]: it returns, or an exception of the sample
    printer leaves it. *)
Lemma main_outcome (a : args) (w : world) :
  match fst (main urljoin a w) with
  | SysExit _ => False
  | _ => True
  end.
Proof.
  unfold main. unfold bind at 1.
  destruct (scrape_books urljoin (max_pages a) (deep a) w) as [[|b books] w1].
  - unfold bind. now destruct (print _ w1).
  - unfold bind at 1. destruct (save_to_csv _ _ w1) as [[] w2].
    unfold bind at 1.
    destruct (match truthy (out_sqlite a) with
              | Some file => save_to_sqlite (b :: books) file
              | None => ret tt
              end w2) as [[] w3].
    unfold bind at 1.
    destruct (print_sample_data (out_csv a) (out_sqlite a) 5 w3) as [[[]|e] w4].
    + unfold bind.
      repeat match goal with
             | |- context [let (_, _) := ?x in _] => destruct x
             end.
      exact I.
    + exact I.
Qed.

(** C3 (as amended).  When the run produces no record, [main] prints the
    message that no books were scraped and nothing else, writes no file, and
    returns; it never calls [sys.exit], so the exit status is 0, the same as
    on the success path: the only way [main] ends with another status is an
    exception that escapes it. *)
Theorem main_zero_records (a : args) (w : world) :
  fst (scrape_books urljoin (max_pages a) (deep a) w) = [] ->
  main urljoin a w
  = (Returned,
     after (snd (scrape_books urljoin (max_pages a) (deep a) w))
       [Print "No books were scraped. Check your internet connection and try again."])
  /\ exit_status (fst (main urljoin a w)) = 0%Z
  /\ fs (snd (main urljoin a w)) = fs w
  /\ db (snd (main urljoin a w)) = db w
  /\ (forall a' w', exit_status (fst (main urljoin a' w')) = 0%Z
                    \/ exists e, fst (main urljoin a' w') = Raised e).
Proof.
  intros Hnone.
  assert (Hmain : main urljoin a w
    = (Returned,
       after (snd (scrape_books urljoin (max_pages a) (deep a) w))
         [Print "No books were scraped. Check your internet connection and try again."])).
  { unfold main. unfold bind at 1.
    destruct (scrape_books urljoin (max_pages a) (deep a) w) as [books w1].
    cbn [fst] in Hnone. subst books. run_step. reflexivity. }
  split; [exact Hmain |].
  rewrite Hmain. cbn [fst snd].
  destruct (scrape_books_after (max_pages a) (deep a) w) as [evs E].
  rewrite E. cbn [snd]. repeat split.
  intros a' w'. pose proof (main_outcome a' w') as H.
  destruct (fst (main urljoin a' w')) as [| code | e];
    [now left | destruct H | right; now exists e].
Qed.

End MainFacts.

(** A run against a site that does not answer. *)
Lemma main_zero_records_sample :
  let a := mkArgs 3 false "books.csv" None in
  main urljoin_plain a offline
  = (Returned,
     after (snd (scrape_books urljoin_plain (max_pages a) (deep a) offline))
       [Print "No books were scraped. Check your internet connection and try again."])
  /\ exit_status (fst (main urljoin_plain a offline)) = 0%Z
  /\ fs (snd (main urljoin_plain a offline)) = fs offline
  /\ db (snd (main urljoin_plain a offline)) = db offline
  /\ (forall a' w', exit_status (fst (main urljoin_plain a' w')) = 0%Z
                    \/ exists e, fst (main urljoin_plain a' w') = Raised e).
Proof.
  intros a.
  apply (main_zero_records urljoin_plain a offline).
  reflexivity.
Defined.

(** C3, as stated, fails: the run without records and a run with records
    end with the same status, 0. *)
Lemma main_exit_status_not_distinct :
  fst (scrape_books urljoin_plain 3 false offline) = []
  /\ exit_status (fst (main urljoin_plain (mkArgs 3 false "books.csv" None) offline))
     = 0%Z
  /\ fst (scrape_books urljoin_plain 1 false (serving (page_of [pod_full]))) <> []
  /\ exit_status (fst (main urljoin_plain (mkArgs 1 false "books.csv" None)
                         (serving (page_of [pod_full]))))
     = 0%Z.
Proof.
  split; [reflexivity |].
  split; [reflexivity |].
  split; [| vm_compute; reflexivity].
  vm_compute. discriminate.
Qed.

(** ** The tabular sink *)

Module CsvFacts.

Import Csv.

Lemma process_chars_app (r : reader) (a b : string) :
  process_chars r (a ++ b) =
  match process_chars r a with
  | Some r' => process_chars r' b
  | None => None
  end.
Proof.
  revert r. induction a as [|c a IH]; intros r; simpl; [reflexivity |].
  destruct (process_char r (Ch c)); [apply IH | reflexivity].
Qed.

Lemma process_line_snoc (r : reader) (cur : string) (c : ascii) :
  process_line r (cur ++ String c "") =
  match process_chars r cur with
  | Some r1 =>
      match process_char r1 (Ch c) with
      | Some r2 => process_char r2 EOL
      | None => None
      end
  | None => None
  end.
Proof.
  unfold process_line. rewrite process_chars_app.
  destruct (process_chars r cur) as [r1|]; [| reflexivity].
  simpl. now destruct (process_char r1 (Ch c)).
Qed.

Lemma read_lines_one (line : string) (rest : list string) (r : reader) :
  read_lines (line :: rest) r =
  match process_chars r line with
  | Some r1 => end_line r1 (read_lines rest)
  | None => ([], true)
  end.
Proof.
  cbn [read_lines]. unfold process_line, end_line.
  destruct (process_chars r line) as [r1|]; reflexivity.
Qed.

Lemma append_snoc_ne (cur : string) (c : ascii) :
  ((cur ++ String c "") =? "")%string = false.
Proof. destruct cur; reflexivity. Qed.

(** The reader over the lines of a text is the reader fed the text
    character by character. *)
Lemma read_lines_stream (n : nat) :
  forall (s cur : string) (r : reader),
    String.length s <= n ->
    read_lines (split_lines cur s) r =
    match process_chars r cur with
    | Some r1 => stream r1 (negb (cur =? "")%string) s
    | None =>
        match s with
        | EmptyString => if (cur =? "")%string then read_lines [] r else ([], true)
        | _ => ([], true)
        end
    end.
Proof.
  induction n as [|n IH]; intros s cur r Hlen.
  - destruct s; [| simpl in Hlen; lia]. cbn [split_lines stream].
    destruct (String.eqb_spec cur "") as [-> | Hne]; [reflexivity |].
    rewrite read_lines_one. cbn [negb]. now destruct (process_chars r cur).
  - destruct s as [|c s].
    { cbn [split_lines stream].
      destruct (String.eqb_spec cur "") as [-> | Hne]; [reflexivity |].
      rewrite read_lines_one. cbn [negb]. now destruct (process_chars r cur). }
    simpl in Hlen. cbn [split_lines stream].
    destruct (Ascii.eqb_spec c LF) as [-> | Hlf].
    { rewrite read_lines_one, process_chars_app.
      destruct (process_chars r cur) as [r1|]; [| reflexivity].
      cbn [process_chars].
      destruct (process_char r1 (Ch LF)) as [r2|]; [| reflexivity].
      unfold end_line. destruct (process_char r2 EOL) as [r3|]; [| reflexivity].
      rewrite !(IH s "") by lia. reflexivity. }
    destruct (Ascii.eqb_spec c CR) as [-> | Hcr].
    { destruct s as [|c2 s].
      - rewrite read_lines_one, process_chars_app.
        destruct (process_chars r cur) as [r1|]; [| reflexivity].
        cbn [process_chars].
        now destruct (process_char r1 (Ch CR)).
      - destruct (Ascii.eqb_spec c2 LF) as [-> | Hlf2].
        + rewrite read_lines_one, !process_chars_app.
          destruct (process_chars r cur) as [r1|]; [| reflexivity].
          cbn [process_chars].
          destruct (process_char r1 (Ch CR)) as [r2|]; [| reflexivity].
          destruct (process_char r2 (Ch LF)) as [r3|]; [| reflexivity].
          unfold end_line. destruct (process_char r3 EOL) as [r4|]; [| reflexivity].
          simpl in Hlen. rewrite !(IH s "") by lia. reflexivity.
        + rewrite read_lines_one, process_chars_app.
          destruct (process_chars r cur) as [r1|]; [| reflexivity].
          cbn [process_chars].
          destruct (process_char r1 (Ch CR)) as [r2|]; [| reflexivity].
          unfold end_line. destruct (process_char r2 EOL) as [r3|]; [| reflexivity].
          rewrite !(IH (String c2 s) "") by lia. reflexivity. }
    rewrite (IH s) by lia. rewrite process_chars_app, append_snoc_ne.
    destruct (process_chars r cur) as [r1|].
    + cbn [process_chars negb].
      destruct (process_char r1 (Ch c)) as [r2|]; [reflexivity |].
      now destruct s.
    + now destruct s.
Qed.

Lemma read_stream (content : string) :
  read content = stream reset false content.
Proof.
  unfold read. now rewrite (read_lines_stream (String.length content)).
Qed.

Lemma not_special (c : ascii) :
  is_special c = false ->
  (c =? delimiter)%char = false /\ (c =? quotechar)%char = false
  /\ (c =? CR)%char = false /\ (c =? LF)%char = false.
Proof.
  unfold is_special. intros H.
  repeat (apply orb_false_iff in H as [H ?]). tauto.
Qed.

Lemma needs_quotes_cons (c : ascii) (f : string) :
  needs_quotes (String c f) = false ->
  is_special c = false /\ needs_quotes f = false.
Proof. simpl. intros H. now apply orb_false_iff in H. Qed.

Ltac char_facts H :=
  apply not_special in H;
  let Hd := fresh "Hd" in let Hq := fresh "Hq" in
  let Hcr := fresh "Hcr" in let Hlf := fresh "Hlf" in
  destruct H as [Hd [Hq [Hcr Hlf]]].

Lemma eqb_d_q : (delimiter =? quotechar)%char = false.
Proof. reflexivity. Qed.

Lemma eqb_d_cr : (delimiter =? CR)%char = false.
Proof. reflexivity. Qed.

Lemma eqb_d_lf : (delimiter =? LF)%char = false.
Proof. reflexivity. Qed.

Lemma eqb_q_d : (quotechar =? delimiter)%char = false.
Proof. reflexivity. Qed.

Lemma eqb_q_cr : (quotechar =? CR)%char = false.
Proof. reflexivity. Qed.

Lemma eqb_q_lf : (quotechar =? LF)%char = false.
Proof. reflexivity. Qed.

Lemma eqb_cr_d : (CR =? delimiter)%char = false.
Proof. reflexivity. Qed.

Lemma eqb_cr_q : (CR =? quotechar)%char = false.
Proof. reflexivity. Qed.

Lemma eqb_cr_lf : (CR =? LF)%char = false.
Proof. reflexivity. Qed.

Lemma eqb_lf_d : (LF =? delimiter)%char = false.
Proof. reflexivity. Qed.

Lemma eqb_lf_q : (LF =? quotechar)%char = false.
Proof. reflexivity. Qed.

Lemma eqb_lf_cr : (LF =? CR)%char = false.
Proof. reflexivity. Qed.

Create Rewrite HintDb csv_chars.

#[local] Hint Rewrite eqb_d_q eqb_d_cr eqb_d_lf eqb_q_d eqb_q_cr eqb_q_lf eqb_cr_d eqb_cr_q eqb_cr_lf eqb_lf_d eqb_lf_q eqb_lf_cr Ascii.eqb_refl : csv_chars.

Ltac chars :=
  repeat (progress
            (autorewrite with csv_chars;
             repeat match goal with
                    | H : (_ =? _)%char = false |- _ => rewrite H
                    end;
             cbn [orb andb]));
  unfold add_char, goto, save_field; cbn [st field fields].

(** Run the reader over the characters that are known. *)
Ltac step :=
  repeat (progress
            (cbn [stream append process_char st is_newline start_field state_eqb];
             unfold end_line; chars)).

(** An unquoted field, once begun. *)
Lemma in_field_plain (f : string) :
  forall (fld : string) (flds : list string) (rest : string),
    needs_quotes f = false ->
    stream (mkReader IN_FIELD fld flds) true (f ++ rest)
    = stream (mkReader IN_FIELD (fld ++ f) flds) true rest.
Proof.
  induction f as [|c f IH]; intros fld flds rest Hq.
  - now rewrite append_nil_r.
  - apply needs_quotes_cons in Hq as [Hc Hf]. char_facts Hc.
    step.
    rewrite IH by assumption. now rewrite append_assoc.
Qed.

(** An unquoted field that is not empty, from its first character. *)
Lemma start_plain (s0 : state) (c : ascii) (f : string) (flds : list string)
  (pending : bool) (rest : string) :
  at_field s0 ->
  needs_quotes (String c f) = false ->
  stream (mkReader s0 "" flds) pending (String c f ++ rest)
  = stream (mkReader IN_FIELD (String c f) flds) true rest.
Proof.
  intros Hs Hq. apply needs_quotes_cons in Hq as [Hc Hf]. char_facts Hc.
  destruct Hs as [-> | ->]; step; now rewrite in_field_plain.
Qed.

(** The closing quote. *)
Lemma quoted_close (fld : string) (flds : list string) (pending : bool)
  (rest : string) :
  stream (mkReader IN_QUOTED_FIELD fld flds) pending (String quotechar rest)
  = stream (mkReader QUOTE_IN_QUOTED_FIELD fld flds) true rest.
Proof. reflexivity. Qed.

(** A line end inside quotes. *)
Lemma quoted_end_line (fld : string) (flds : list string) (k : reader -> records) :
  end_line (mkReader IN_QUOTED_FIELD fld flds) k
  = k (mkReader IN_QUOTED_FIELD fld flds).
Proof. reflexivity. Qed.

(** The data of a quoted field, up to the closing quote. *)
Lemma quoted_body (n : nat) :
  forall (f fld : string) (flds : list string) (pending : bool) (rest : string),
    String.length f <= n ->
    stream (mkReader IN_QUOTED_FIELD fld flds) pending
      (double_quotes f ++ String quotechar rest)
    = stream (mkReader QUOTE_IN_QUOTED_FIELD (fld ++ f) flds) true rest.
Proof.
  induction n as [|n IH]; intros f fld flds pending rest Hlen.
  - destruct f; [| simpl in Hlen; lia].
    cbn [double_quotes append]. now rewrite quoted_close, append_nil_r.
  - destruct f as [|c f].
    { cbn [double_quotes append]. now rewrite quoted_close, append_nil_r. }
    simpl in Hlen.
    assert (Hfld : forall g, ((fld ++ String c "") ++ g)%string
                             = (fld ++ String c g)%string)
      by (intros g; now rewrite append_assoc).
    cbn [double_quotes].
    destruct (Ascii.eqb_spec c quotechar) as [-> | Hq].
    { (* a doubled quote *)
      cbn [append]. rewrite quoted_close.
      change (stream (mkReader QUOTE_IN_QUOTED_FIELD fld flds) true
                (String quotechar (double_quotes f ++ String quotechar rest)))
        with (stream (mkReader IN_QUOTED_FIELD (fld ++ String quotechar "") flds)
                true (double_quotes f ++ String quotechar rest)).
      rewrite IH by lia. now rewrite Hfld. }
    apply Ascii.eqb_neq in Hq.
    destruct (Ascii.eqb_spec c LF) as [-> | Hlf].
    { (* a line feed *)
      step. rewrite IH by lia. now rewrite Hfld. }
    apply Ascii.eqb_neq in Hlf.
    destruct (Ascii.eqb_spec c CR) as [-> | Hcr].
    { (* a carriage return: the next character decides where the line ends *)
      destruct f as [|c2 f].
      - cbn [double_quotes]. step. reflexivity.
      - destruct (Ascii.eqb_spec c2 LF) as [-> | Hlf2].
        + cbn [double_quotes]. chars. step. simpl in Hlen.
          rewrite IH by lia. now rewrite !append_assoc.
        + apply Ascii.eqb_neq in Hlf2.
          assert (Hnext : exists s', (double_quotes (String c2 f)
                                      ++ String quotechar rest)%string
                                     = String c2 s').
          { cbn [double_quotes]. destruct (c2 =? quotechar)%char eqn:E.
            - apply Ascii.eqb_eq in E. subst c2. cbn [append]. eauto.
            - cbn [append]. eauto. }
          destruct Hnext as [s' Hs'].
          step. rewrite Hs'. cbv beta iota. rewrite Hlf2, <- Hs'.
          rewrite IH by lia. now rewrite Hfld. }
    apply Ascii.eqb_neq in Hcr.
    (* any other character *)
    step. rewrite IH by lia. now rewrite Hfld.
Qed.

(** A field and the delimiter after it. *)
Lemma field_then_delimiter (s0 : state) (f : string) (flds : list string)
  (pending : bool) (rest : string) :
  at_field s0 ->
  stream (mkReader s0 "" flds) pending (render_field f ++ String delimiter rest)
  = stream (mkReader START_FIELD "" (flds ++ [f])) true rest.
Proof.
  intros Hs. unfold render_field. destruct (needs_quotes f) eqn:E.
  - cbn [append]. rewrite append_assoc. cbn [append].
    destruct Hs as [-> | ->]; step;
      rewrite (quoted_body (String.length f)) by lia; step; reflexivity.
  - destruct f as [|c f].
    + destruct Hs as [-> | ->]; step; reflexivity.
    + rewrite start_plain by assumption. step. reflexivity.
Qed.

(** The last field of a record and the line terminator after it. *)
Lemma field_then_crlf (s0 : state) (f : string) (flds : list string)
  (pending : bool) (rest : string) :
  s0 = START_FIELD \/ (s0 = START_RECORD /\ render_field f <> "") ->
  stream (mkReader s0 "" flds) pending (render_field f ++ lineterminator ++ rest)
  = yield (flds ++ [f]) (stream reset false rest).
Proof.
  intros Hs. unfold lineterminator.
  assert (Hat : at_field s0) by (unfold at_field; tauto).
  unfold render_field in *. destruct (needs_quotes f) eqn:E.
  - cbn [append]. rewrite append_assoc. cbn [append].
    destruct Hat as [-> | ->]; step;
      rewrite (quoted_body (String.length f)) by lia; step; reflexivity.
  - destruct f as [|c f].
    + destruct Hs as [-> | [_ Hne]]; [| congruence]. step. reflexivity.
    + rewrite start_plain by assumption. step. reflexivity.
Qed.

Lemma concat_cons2 (sep x y : string) (l : list string) :
  String.concat sep (x :: y :: l) = (x ++ sep ++ String.concat sep (y :: l))%string.
Proof. reflexivity. Qed.

(** The fields of a record, from any of them on. *)
Lemma fields_then_crlf (fs : list string) :
  forall (f : string) (s0 : state) (flds : list string) (pending : bool)
         (rest : string),
    s0 = START_FIELD
    \/ (s0 = START_RECORD /\ (fs <> [] \/ render_field f <> "")) ->
    stream (mkReader s0 "" flds) pending
      (String.concat (String delimiter "") (map render_field (f :: fs))
       ++ lineterminator ++ rest)
    = yield (flds ++ f :: fs) (stream reset false rest).
Proof.
  induction fs as [|g fs IH]; intros f s0 flds pending rest Hs.
  - cbn [map String.concat]. apply field_then_crlf.
    destruct Hs as [Hs | [Hs [Hne | Hne]]]; [now left | congruence | now right].
  - cbn [map]. rewrite concat_cons2, !append_assoc. cbn [append].
    rewrite field_then_delimiter
      by (unfold at_field; destruct Hs as [Hs | [Hs _]]; tauto).
    change (render_field g :: map render_field fs)
      with (map render_field (g :: fs)).
    rewrite IH by now left. now rewrite <- app_assoc.
Qed.

Lemma append_empty (a b : string) : (a ++ b)%string = "" -> a = "" /\ b = "".
Proof. destruct a; simpl; [tauto | discriminate]. Qed.

Lemma render_field_empty (f : string) : render_field f = "" -> f = "".
Proof.
  unfold render_field. destruct (needs_quotes f); [discriminate | tauto].
Qed.

(** One row that was written is read back as it was. *)
Lemma render_row_read (row : list string) (rest : string) :
  stream reset false (render_row row ++ rest)
  = yield row (stream reset false rest).
Proof.
  unfold render_row. destruct row as [|f fs].
  - cbn [map String.concat]. unfold lineterminator, reset.
    cbn [append]. step. reflexivity.
  - destruct (String.concat (String delimiter "") (map render_field (f :: fs)))
      as [|c rec] eqn:E.
    + assert (Hrow : fs = [] /\ f = "").
      { destruct fs as [|g fs].
        - cbn in E. now apply render_field_empty in E.
        - cbn [map] in E. rewrite concat_cons2 in E.
          apply append_empty in E as [_ E]. discriminate. }
      destruct Hrow as [-> ->]. unfold lineterminator, reset.
      cbn [append]. step. reflexivity.
    + rewrite <- E, append_assoc. unfold reset.
      rewrite (fields_then_crlf fs f START_RECORD [] false rest); [reflexivity |].
      right. split; [reflexivity |].
      destruct fs as [|g fs]; [right | left; discriminate].
      cbn in E. congruence.
Qed.

(** What the writer wrote, the reader reads: every row with every field,
    and no error. *)
Theorem read_render_rows (rows : list (list string)) :
  read (render_rows rows) = (rows, false).
Proof.
  rewrite read_stream. induction rows as [|row rows IH]; [reflexivity |].
  cbn [render_rows]. rewrite render_row_read, IH. reflexivity.
Qed.

End CsvFacts.

Lemma row_of_book_csv_row (book : BookRow) :
  row_of_book book (Csv.zip_row fieldnames (csv_row book)).
Proof.
  unfold row_of_book. cbn [fieldnames csv_row Csv.zip_row].
  repeat split; try reflexivity.
  - apply int_of_str_of_int.
  - intros H. cbn. now rewrite H.
  - intros H. cbn. now rewrite H.
  - intros H. cbn. now rewrite H.
Qed.

Lemma filter_csv_rows (books : list BookRow) :
  filter (fun r => negb (Csv.is_blank r)) (map csv_row books) = map csv_row books.
Proof.
  induction books as [|b books IH]; [reflexivity |].
  cbn [map filter csv_row Csv.is_blank negb]. now rewrite IH.
Qed.


(** The file of a crawl of one page, read back. *)
Example save_to_csv_sample :
  let books :=
    fst (scrape_books urljoin_plain 1 false (serving (page_of [pod_full; pod_bare]))) in
  let w := snd (save_to_csv books "books.csv" offline) in
  option_map (fun content =>
                map (fun row => (Csv.dict_get "title" row, Csv.dict_get "rating" row,
                                 Csv.dict_get "upc" row))
                  (fst (Csv.dict_rows (Csv.read content))))
    (fs w "books.csv")
  = Some [(Some (Some "A Light in the Attic"), Some (Some "3"), Some (Some ""));
          (Some (Some "Bare"), Some (Some "0"), Some (Some ""))].
Proof. vm_compute. reflexivity. Qed.

(** The sample printer opens the file in the default text mode, in which a
    carriage return inside a field is read as a line feed; [Csv.read] above
    is the reader on the text as written. *)
Remark default_mode_reads_cr_as_lf :
  let cr := String Csv.CR "" in
  let lf := String Csv.LF "" in
  let content := Csv.render_rows [["title"]; [("a" ++ cr ++ "b")%string]] in
  Csv.read content = ([["title"]; [("a" ++ cr ++ "b")%string]], false)
  /\ Csv.read_lines (Csv.split_lines "" (Csv.translate_newlines content)) Csv.reset
     = ([["title"]; [("a" ++ lf ++ "b")%string]], false).
Proof. split; reflexivity. Qed.

(* ================================================================== *)
(** * Further properties of the scraper *)

(** ** The page fetcher, when the site answers *)

Lemma net_after (w : world) (evs : list event) : net (after w evs) = net w.
Proof. reflexivity. Qed.

Lemma nreq_after (w : world) (evs : list event) :
  nreq (after w evs) = nreq w + List.length (gets evs).
Proof. reflexivity. Qed.

Lemma get_page_loop_success (url : string) (max_retries : Z) (soup : node)
  (n : nat) :
  forall (attempt : Z) (w : world),
    (0 <= attempt)%Z ->
    (attempt + Z.of_nat n < max_retries)%Z ->
    (forall j, j < n -> net w (nreq w + j) url = None) ->
    net w (nreq w + n) url = Some soup ->
    get_page_loop url max_retries (range attempt max_retries) w
    = (Some soup,
       after w (flat_map (failed_attempt url max_retries)
                  (range attempt (attempt + Z.of_nat n))
                ++ successful_attempt url (attempt + Z.of_nat n))).
Proof.
  induction n as [|n IH]; intros attempt w Hpos Hlt Hfail Hok.
  - rewrite (range_cons attempt max_retries) by lia. cbn [get_page_loop].
    run_step. run_step. rewrite net_after, nreq_after. cbn [gets flat_map app List.length].
    rewrite Hok. run_step. unfold ret. rewrite !after_after.
    rewrite range_nil by lia. cbn [flat_map app].
    unfold successful_attempt. now rewrite Z.add_0_r.
  - rewrite (range_cons attempt max_retries) by lia. cbn [get_page_loop].
    run_step. run_step. rewrite net_after, nreq_after. cbn [gets flat_map app List.length].
    rewrite (Hfail 0) by lia. run_step.
    replace (attempt <? max_retries - 1)%Z with true by (symmetry; apply Z.ltb_lt; lia).
    run_step. rewrite !after_after. cbn [app].
    rewrite (IH (attempt + 1)%Z); [| lia | lia | |].
    + rewrite after_after.
      rewrite (range_cons attempt (attempt + Z.of_nat (S n))) by lia.
      cbn [flat_map]. unfold failed_attempt at 2.
      replace (attempt <? max_retries - 1)%Z with true
        by (symmetry; apply Z.ltb_lt; lia).
      replace (attempt + 1 + Z.of_nat n)%Z with (attempt + Z.of_nat (S n))%Z by lia.
      cbn [app]. reflexivity.
    + intros j Hj. rewrite net_after, nreq_after. cbn [gets flat_map app List.length].
      replace (nreq w + 1 + j) with (nreq w + S j) by lia. apply Hfail. lia.
    + rewrite net_after, nreq_after. cbn [gets flat_map app List.length].
      replace (nreq w + 1 + n) with (nreq w + S n) by lia. exact Hok.
Qed.

Lemma in_range (lo hi a : Z) : In a (range lo hi) -> (lo <= a < hi)%Z.
Proof.
  unfold range. intros H. apply in_map_iff in H as [k [<- Hk]].
  apply in_seq in Hk. lia.
Qed.

Lemma sleeps_retried (url : string) (m : Z) (l : list Z) :
  (forall a, In a l -> (a < m - 1)%Z) ->
  sleeps (flat_map (failed_attempt url m) l)
  = map (fun attempt => Seconds (2 ^ attempt)) l.
Proof.
  induction l as [|a l IH]; intros H; [reflexivity |].
  cbn [flat_map map]. rewrite sleeps_app, IH by (intros b Hb; apply H; now right).
  unfold failed_attempt.
  replace (a <? m - 1)%Z with true
    by (symmetry; apply Z.ltb_lt, H; now left).
  reflexivity.
Qed.


Lemma flaky_nreq (page : node) : nreq (flaky page) = 0.
Proof. reflexivity. Qed.


Lemma get_page_loop_requests (url : string) (max_retries : Z) :
  forall (attempts : list Z) (w : world),
  exists r evs k,
    get_page_loop url max_retries attempts w = (r, after w evs)
    /\ gets evs = repeat url k
    /\ k <= List.length attempts
    /\ (attempts <> [] -> 1 <= k)
    /\ (forall j, S j < k -> net w (nreq w + j) url = None)
    /\ match r with
       | Some soup => 1 <= k /\ net w (nreq w + (k - 1)) url = Some soup
       | None => forall j, j < k -> net w (nreq w + j) url = None
       end.
Proof.
  induction attempts as [|a attempts IH]; intros w.
  - exists None, [], 0. cbn. rewrite after_nil.
    repeat split; try lia; try tauto; intros j Hj; lia.
  - cbn [get_page_loop]. run_step. run_step.
    rewrite net_after, nreq_after. cbn [gets flat_map app List.length].
    rewrite Nat.add_0_r.
    destruct (net w (nreq w) url) as [soup|] eqn:E.
    + run_step. unfold ret. rewrite !after_after. cbn [app].
      exists (Some soup), (successful_attempt url a), 1.
      split; [reflexivity |]. split; [reflexivity |].
      split; [cbn; lia |]. split; [lia |].
      split; [intros j Hj; lia |].
      split; [lia |]. cbn. now rewrite Nat.add_0_r.
    + run_step. destruct (a <? max_retries - 1)%Z.
      * run_step. rewrite !after_after. cbn [app].
        match goal with
        | |- context [after w ?pre] => set (pre0 := pre)
        end.
        destruct (IH (after w pre0)) as (r & evs & k & Hrun & Hgets & Hk & _ & Hbefore & Hr).
        exists r, (pre0 ++ evs), (S k).
        rewrite Hrun, after_after. split; [reflexivity |].
        split; [rewrite gets_app, Hgets; reflexivity |].
        split; [cbn; lia |]. split; [lia |].
        assert (Hshift : forall j, net (after w pre0) (nreq (after w pre0) + j) url
                                   = net w (nreq w + S j) url).
        { intros j. rewrite net_after, nreq_after. subst pre0.
          cbn [gets flat_map app List.length]. f_equal. lia. }
        split.
        { intros [|j] Hj; [now rewrite Nat.add_0_r |].
          rewrite <- Hshift. apply Hbefore. lia. }
        destruct r as [soup|].
        -- destruct Hr as [Hk1 Hsoup]. split; [lia |].
           rewrite Hshift in Hsoup. rewrite <- Hsoup. f_equal. lia.
        -- intros [|j] Hj; [now rewrite Nat.add_0_r |].
           rewrite <- Hshift. apply Hr. lia.
      * run_step. unfold ret. rewrite !after_after. cbn [app].
        eexists None, _, 1. split; [reflexivity |].
        split; [reflexivity |]. split; [cbn; lia |]. split; [lia |].
        split; [intros j Hj; lia |].
        intros j Hj. replace j with 0 by lia. now rewrite Nat.add_0_r.
Qed.


Lemma backoff_range (n : nat) :
  forall a b : Z,
    n = Z.to_nat (b - a) -> (0 <= a <= b)%Z ->
    backoff_seconds (map (fun attempt => Seconds (2 ^ attempt)) (range a b))
    = (2 ^ b - 2 ^ a)%Z.
Proof.
  induction n as [|n IH]; intros a b Hn Hab.
  - rewrite range_nil by lia. replace b with a by lia. cbn. lia.
  - rewrite range_cons by lia. cbn [map backoff_seconds fold_right].
    fold (backoff_seconds (map (fun attempt => Seconds (2 ^ attempt)) (range (a + 1) b))).
    rewrite (IH (a + 1)%Z b) by lia.
    rewrite Z.pow_add_r by lia. lia.
Qed.

(** X3.  When every request fails, the backoff pauses of one [get_page]
    add up to [2 ^ (max_retries - 1) - 1] seconds: 3 seconds for the three
    attempts the scraper uses. *)
Theorem get_page_backoff_total (url : string) (max_retries : Z) (w : world) :
  (1 <= max_retries)%Z ->
  all_fail w ->
  backoff_seconds (sleeps (new_events w (snd (get_page url max_retries w))))
  = (2 ^ (max_retries - 1) - 1)%Z.
Proof.
  intros Hm Hfail. rewrite get_page_all_fail by assumption. cbn [snd].
  rewrite new_events_after.
  rewrite (sleeps_failed_attempts url max_retries (Z.to_nat (max_retries - 0)))
    by reflexivity.
  rewrite (backoff_range (Z.to_nat (max_retries - 1 - 0))) by lia.
  reflexivity.
Qed.

(** The three attempts against a site that does not answer. *)
Lemma get_page_backoff_total_sample :
  backoff_seconds
    (sleeps (new_events offline
               (snd (get_page (page_url 1) default_max_retries offline))))
  = 3%Z.
Proof.
  apply (get_page_backoff_total (page_url 1) default_max_retries offline).
  - unfold default_max_retries. lia.
  - exact offline_all_fail.
Defined.

(** ** Rating and availability, further *)

Lemma lower_char_idem (c : ascii) : lower_char (lower_char c) = lower_char c.
Proof. destruct c as [[] [] [] [] [] [] [] []]; reflexivity. Qed.

Lemma lower_idem (s : string) : lower (lower s) = lower s.
Proof.
  induction s as [|c s IH]; simpl; [reflexivity |].
  now rewrite lower_char_idem, IH.
Qed.

Lemma lower_app (a b : string) :
  lower (a ++ b) = (lower a ++ lower b)%string.
Proof. induction a as [|c a IH]; simpl; [reflexivity | now rewrite IH]. Qed.

Lemma extract_rating_loop_lower (items : list (string * Z)) (s1 s2 : string) :
  lower s1 = lower s2 ->
  extract_rating_loop items s1 = extract_rating_loop items s2.
Proof.
  intros H. induction items as [|[w n] items IH]; simpl; [reflexivity |].
  now rewrite H, IH.
Qed.

Lemma rating_map_nonzero (w : string) (n : Z) :
  In (w, n) rating_map -> n <> 0%Z.
Proof. intros Hin. split_in Hin; injection Hin as _ <-; discriminate. Qed.

(** X4.  [extract_rating] does not look at the case of its input, and a
    word it recognizes in a text it still recognizes in any longer text
    around it: a rating of 0 for the longer text means 0 for the part. *)
Theorem extract_rating_case_and_context (rating_class pre post : string) :
  extract_rating (lower rating_class) = extract_rating rating_class
  /\ (extract_rating (pre ++ rating_class ++ post) = 0%Z ->
      extract_rating rating_class = 0%Z).
Proof.
  split.
  - apply extract_rating_loop_lower, lower_idem.
  - unfold extract_rating.
    rewrite !(extract_rating_loop_zero rating_map) by exact rating_map_nonzero.
    intros H w n Hin [a [b Hocc]]. apply (H w n Hin).
    exists (lower pre ++ a)%string, (b ++ lower post)%string.
    rewrite !lower_app, Hocc, !append_assoc. reflexivity.
Qed.

(** What the pattern captures is one or more digits. *)
Lemma search_count_digits (s ds : string) :
  search_count s = Some ds -> ds <> "" /\ all_digits ds = true.
Proof.
  intros E.
  apply search_count_some, first_count_occurs in E
    as (pre & rest & _ & post & _ & Hne & Hds).
  now split.
Qed.

Lemma extract_availability_values (s : string) :
  availability_shape (extract_availability s).
Proof.
  unfold availability_shape, extract_availability.
  destruct (contains "In stock" s); [| now left].
  destruct (search_count s) as [ds|] eqn:E; [| right; now left].
  right. right. exact (search_count_digits s ds E).
Qed.


Lemma extract_rating_range (s : string) : (0 <= extract_rating s <= 5)%Z.
Proof.
  unfold extract_rating.
  pose proof (extract_rating_loop_in rating_map s) as H.
  set (r := extract_rating_loop rating_map s) in *.
  destruct H as [H | [w Hin]]; [lia |].
  split_in Hin; injection Hin as _ Hr; lia.
Qed.

(** ** The listing extractor, further *)

Section ListingMore.

Variable urljoin : string -> string -> result string.

Lemma parse_article_values (article : element) (base : string) (book : BookRow) :
  parse_article urljoin article base = Ok book ->
  (exists s, rating book = extract_rating s)
  /\ (exists s, availability book = extract_availability s)
  /\ (price book = "N/A" \/ exists s, price book = strip s).
Proof.
  unfold parse_article.
  destruct (find (is_tag "h3") article) as [h3|]; [| discriminate].
  cbn [deref rbind].
  destruct (find (is_tag "a") h3) as [a|]; [| discriminate].
  cbn [deref rbind].
  destruct (urljoin base (get "href" "" a)) as [u|]; [| discriminate].
  cbn [rbind]. intros [= <-]. cbn [rating availability price].
  split; [eauto |]. split; [eauto |].
  destruct (find _ article); [right; eauto | now left].
Qed.


Lemma listing_loop_run (articles : list element) (base : string) :
  forall (acc : list BookRow) (w : world),
    for_each articles acc
      (fun books article =>
         match parse_article urljoin article base with
         | Ok book => ret (books ++ [book])
         | Raise e => log WARNING (ErrorParsingBook e) ;; ret books
         end) w
    = (acc ++ flat_map (fun article =>
                          match parse_article urljoin article base with
                          | Ok book => [book]
                          | Raise _ => []
                          end) articles,
       after w (flat_map (listing_warning urljoin base) articles)).
Proof.
  induction articles as [|a articles IH]; intros acc w; cbn [for_each flat_map].
  - unfold ret. now rewrite app_nil_r, after_nil.
  - unfold bind at 1. unfold listing_warning at 1.
    destruct (parse_article urljoin a base) as [book | e].
    + unfold ret at 1. rewrite IH. cbn [app]. now rewrite <- app_assoc.
    + run_step. unfold ret at 1. rewrite IH, after_after. reflexivity.
Qed.

Lemma scrape_book_listing_pair (soup : node) (base : string) (w : world) :
  scrape_book_listing urljoin soup base w
  = (listing urljoin soup base,
     after w (flat_map (listing_warning urljoin base) (product_pods soup))).
Proof. unfold scrape_book_listing, listing. now rewrite listing_loop_run. Qed.

Lemma listing_warnings_gets (base : string) (articles : list element) :
  gets (flat_map (listing_warning urljoin base) articles) = [].
Proof.
  induction articles as [|a l IH]; [reflexivity |].
  cbn [flat_map]. rewrite gets_app, IH. unfold listing_warning.
  now destruct (parse_article urljoin a base).
Qed.

(** X7.  The listing extractor makes no request and writes nothing: all it
    does besides returning the records is to log one warning for each item
    it skips, in page order; so records and warnings together are as many as
    the item containers of the page, and a page without item containers
    gives no record and no warning. *)
Theorem scrape_book_listing_run (soup : node) (base : string) (w : world) :
  scrape_book_listing urljoin soup base w
  = (listing urljoin soup base,
     after w (flat_map (listing_warning urljoin base) (product_pods soup)))
  /\ gets (flat_map (listing_warning urljoin base) (product_pods soup)) = []
  /\ List.length (listing urljoin soup base)
     + List.length (flat_map (listing_warning urljoin base) (product_pods soup))
     = List.length (product_pods soup)
  /\ (product_pods soup = [] ->
      scrape_book_listing urljoin soup base w = ([], w)).
Proof.
  assert (Hrun : scrape_book_listing urljoin soup base w
                 = (listing urljoin soup base,
                    after w (flat_map (listing_warning urljoin base)
                               (product_pods soup)))).
  { apply scrape_book_listing_pair. }
  split; [exact Hrun |]. split; [| split].
  - apply listing_warnings_gets.
  - clear Hrun. unfold listing.
    induction (product_pods soup) as [|a l IH]; [reflexivity |].
    cbn [flat_map]. rewrite !length_app. unfold listing_warning at 1.
    destruct (parse_article urljoin a base); cbn [List.length]; lia.
  - intros Hnone. rewrite Hrun. unfold listing. rewrite Hnone. cbn.
    now rewrite after_nil.
Qed.

(** X8.  An item is skipped exactly when its container has no [h3], or
    the first [h3] has no link, or [urljoin] raises on the link's [href];
    the first two raise [AttributeError].  A missing price, rating or
    availability element never makes an item fail. *)
Theorem parse_article_raises (article : element) (base : string) (e : exn) :
  parse_article urljoin article base = Raise e <->
  (find (is_tag "h3") article = None /\ e = AttributeError)
  \/ (exists h3, find (is_tag "h3") article = Some h3
                 /\ find (is_tag "a") h3 = None /\ e = AttributeError)
  \/ (exists h3 title_link,
        find (is_tag "h3") article = Some h3
        /\ find (is_tag "a") h3 = Some title_link
        /\ urljoin base (get "href" "" title_link) = Raise e).
Proof.
  unfold parse_article.
  destruct (find (is_tag "h3") article) as [h3|] eqn:Eh3; cbn [deref rbind].
  - destruct (find (is_tag "a") h3) as [a|] eqn:Ea; cbn [deref rbind].
    + destruct (urljoin base (get "href" "" a)) as [u|e'] eqn:Eu; cbn [rbind].
      * split; [discriminate |].
        intros [[H He] | [(h & H & H' & He) | (h & l & H & H' & H'')]];
          congruence.
      * split.
        -- intros [= <-]. right. right. exists h3, a. now repeat split.
        -- intros [[H He] | [(h & H & H' & He) | (h & l & H & H' & H'')]];
             congruence.
    + split.
      * intros [= <-]. right. left. exists h3. now repeat split.
      * intros [[H He] | [(h & H & H' & He) | (h & l & H & H' & H'')]];
          congruence.
  - split.
    + intros [= <-]. now left.
    + intros [[H He] | [(h & H & H' & He) | (h & l & H & H' & H'')]];
        congruence.
Qed.

End ListingMore.


(** ** The detail extractor, further *)

Lemma extract_category_some (soup : node) (c : option string) :
  extract_category soup = Ok c -> exists s, c = Some (strip s).
Proof.
  unfold extract_category.
  destruct (find _ (root soup)) as [b|]; [| discriminate]. cbn [deref rbind].
  destruct (last_item (find_all (is_tag "a") b)) as [a|]; [| discriminate].
  cbn [rbind]. intros [= <-]. eauto.
Qed.

Lemma scrape_book_detail_run (book : BookRow) (w : world) :
  exists evs k,
    scrape_book_detail book w = (fst (scrape_book_detail book w), after w evs)
    /\ gets evs = repeat (product_url book) k
    /\ 1 <= k <= 3.
Proof.
  unfold scrape_book_detail. unfold bind at 1. unfold bind at 2. unfold get_page.
  destruct (get_page_loop_requests (product_url book) default_max_retries
              (range 0 default_max_retries) w)
    as (r & evs & k & Hrun & Hgets & Hk & Hne & _).
  rewrite Hrun.
  assert (Hk3 : 1 <= k <= 3).
  { split; [apply Hne; discriminate | exact Hk]. }
  destruct r as [soup|].
  - destruct (extract_detail soup) as [[[u c] d] | e].
    + exists evs, k. now repeat split.
    + run_step. unfold ret. cbn [fst]. rewrite after_after.
      eexists _, k. split; [reflexivity |].
      split; [| exact Hk3]. rewrite gets_app, Hgets. cbn. now rewrite app_nil_r.
  - exists evs, k. now repeat split.
Qed.

(** X9.  The detail extractor makes between one and three requests, all
    for the record's product URL, and changes nothing else of the world:
    no file, no database. *)
Theorem scrape_book_detail_requests (book : BookRow) (w : world) :
  exists k,
    gets (new_events w (snd (scrape_book_detail book w)))
    = repeat (product_url book) k
    /\ 1 <= k <= 3
    /\ nreq (snd (scrape_book_detail book w)) = nreq w + k
    /\ fs (snd (scrape_book_detail book w)) = fs w
    /\ db (snd (scrape_book_detail book w)) = db w.
Proof.
  destruct (scrape_book_detail_run book w) as (evs & k & Hrun & Hgets & Hk).
  exists k. rewrite Hrun. cbn [snd]. rewrite new_events_after, nreq_after, Hgets.
  rewrite repeat_length. now repeat split.
Qed.

(** X10.  When the detail extractor changes a record at all, the record
    has a category: a page whose breadcrumb cannot be read fails the whole
    enrichment, so the [else None] of the category line is never taken. *)
Theorem scrape_book_detail_category (book : BookRow) (w : world) :
  fst (scrape_book_detail book w) = book
  \/ exists s, category (fst (scrape_book_detail book w)) = Some (strip s).
Proof.
  unfold scrape_book_detail. unfold bind at 1. unfold bind at 2.
  destruct (get_page (product_url book) default_max_retries w) as [[soup|] w'].
  - destruct (extract_detail soup) as [[[u c] d] | e] eqn:E.
    + right. apply extract_detail_ok in E as (_ & Hc & _).
      apply extract_category_some in Hc as [s ->]. now exists s.
    + left. unfold bind at 1. now destruct (log _ _ w').
  - now left.
Qed.

(** ** The crawl, further *)

Section CrawlMore.

Variable urljoin : string -> string -> result string.

(** X11.  A crawl touches the world only by its log records, requests
    and pauses: no file and no database is written, and the count of
    requests grows by the requests it made. *)
Theorem scrape_books_frame (n : Z) (d : bool) (w : world) :
  fs (snd (scrape_books urljoin n d w)) = fs w
  /\ db (snd (scrape_books urljoin n d w)) = db w
  /\ net (snd (scrape_books urljoin n d w)) = net w
  /\ trace (snd (scrape_books urljoin n d w))
     = trace w ++ new_events w (snd (scrape_books urljoin n d w))
  /\ nreq (snd (scrape_books urljoin n d w))
     = nreq w + List.length (gets (new_events w (snd (scrape_books urljoin n d w)))).
Proof.
  destruct (scrape_books_after urljoin n d w) as [evs E].
  rewrite E. cbn [snd]. rewrite new_events_after. now repeat split.
Qed.

Lemma scrape_page_shallow_run (all_books : list BookRow) (page_num : Z)
  (w : world) :
  exists books evs k,
    scrape_page urljoin false all_books page_num w = (books, after w evs)
    /\ gets evs = repeat (page_url page_num) k
    /\ 1 <= k <= 3.
Proof.
  unfold scrape_page. run_step. unfold bind at 1. unfold get_page.
  destruct (get_page_loop_requests (page_url page_num) default_max_retries
              (range 0 default_max_retries)
              (after w [Log INFO (CrawlingPage page_num)]))
    as (r & evs & k & Hrun & Hgets & Hk & Hne & _).
  rewrite Hrun.
  assert (Hk3 : 1 <= k <= 3).
  { split; [apply Hne; discriminate | exact Hk]. }
  destruct r as [soup|].
  - unfold bind at 1. rewrite (scrape_book_listing_pair urljoin).
    run_step. unfold bind at 1. unfold ret.
    rewrite !after_after.
    eexists _, _, k. split; [reflexivity |]. split; [| exact Hk3].
    rewrite !gets_app, Hgets, listing_warnings_gets. cbn.
    now rewrite app_nil_r.
  - run_step. unfold ret. rewrite !after_after.
    eexists _, _, k. split; [reflexivity |]. split; [| exact Hk3].
    rewrite !gets_app, Hgets. cbn. now rewrite app_nil_r.
Qed.

Lemma crawl_shallow_run (pages : list Z) :
  forall (all_books : list BookRow) (w : world),
  exists books evs ks,
    for_each pages all_books (scrape_page urljoin false) w = (books, after w evs)
    /\ gets evs = listing_requests pages ks
    /\ List.length ks = List.length pages
    /\ Forall (fun k => 1 <= k <= 3) ks.
Proof.
  induction pages as [|p pages IH]; intros all_books w; cbn [for_each].
  - exists all_books, [], []. unfold ret. rewrite after_nil. now repeat split.
  - unfold bind.
    destruct (scrape_page_shallow_run all_books p w)
      as (b1 & e1 & k & E1 & G1 & Hk).
    rewrite E1.
    destruct (IH b1 (after w e1)) as (b2 & e2 & ks & E2 & G2 & Hlen & Hks).
    exists b2, (e1 ++ e2), (k :: ks). rewrite <- after_after.
    split; [exact E2 |]. split; [| split].
    + rewrite gets_app, G1, G2. reflexivity.
    + cbn. now rewrite Hlen.
    + now constructor.
Qed.

Lemma listing_requests_length (pages : list Z) :
  forall ks,
    List.length ks = List.length pages ->
    Forall (fun k => 1 <= k <= 3) ks ->
    List.length pages <= List.length (listing_requests pages ks)
                      <= 3 * List.length pages.
Proof.
  induction pages as [|p pages IH]; intros [|k ks] Hlen Hks;
    try discriminate; cbn [listing_requests List.length]; [lia |].
  inversion Hks as [|? ? Hk Hks']; subst.
  injection Hlen as Hlen. specialize (IH ks Hlen Hks').
  rewrite length_app, repeat_length. lia.
Qed.


(** X13.  With [max_pages] zero or negative the crawl has no turn: it
    makes no request, logs the total of 0 and returns the empty list, and
    [main] then prints that no books were scraped and writes nothing. *)
Theorem scrape_books_no_pages (a : args) (w : world) :
  (max_pages a <= 0)%Z ->
  scrape_books urljoin (max_pages a) (deep a) w
  = ([], after w [Log INFO (TotalScraped 0)])
  /\ main urljoin a w
     = (Returned,
        after w [Log INFO (TotalScraped 0);
                 Print "No books were scraped. Check your internet connection and try again."]).
Proof.
  intros Hn.
  assert (E : scrape_books urljoin (max_pages a) (deep a) w
              = ([], after w [Log INFO (TotalScraped 0)])).
  { unfold scrape_books. rewrite range_nil by lia. cbn [for_each].
    unfold bind at 1. unfold ret at 1. run_step. reflexivity. }
  split; [exact E |].
  unfold main. unfold bind at 1. rewrite E. run_step. unfold ret.
  now rewrite after_after.
Qed.

End CrawlMore.

(** A run with [--max-pages 0]. *)
Lemma scrape_books_no_pages_sample :
  scrape_books urljoin_plain 0 true (serving (page_of [pod_full]))
  = ([], after (serving (page_of [pod_full])) [Log INFO (TotalScraped 0)])
  /\ main urljoin_plain (mkArgs 0 true "books.csv" None) (serving (page_of [pod_full]))
     = (Returned,
        after (serving (page_of [pod_full]))
          [Log INFO (TotalScraped 0);
           Print "No books were scraped. Check your internet connection and try again."]).
Proof.
  apply (scrape_books_no_pages urljoin_plain (mkArgs 0 true "books.csv" None)
           (serving (page_of [pod_full]))).
  cbn. lia.
Defined.

Section CrawlRecords.

Variable urljoin : string -> string -> result string.

Lemma listing_well_formed (soup : node) (base : string) (book : BookRow) :
  In book (listing urljoin soup base) -> well_formed book /\ bare book.
Proof.
  unfold listing. intros Hin.
  apply in_flat_map in Hin as [article [_ Hin]].
  destruct (parse_article urljoin article base) as [b | e] eqn:E;
    [| destruct Hin].
  destruct Hin as [<- | []].
  destruct (parse_article_values urljoin _ _ _ E) as ([s1 Hr] & [s2 Ha] & Hp).
  destruct (parse_article_ok urljoin _ _ _ E)
    as (h3 & a & _ & _ & Ht & _ & Hu & Hc & Hd).
  split; [| now repeat split].
  unfold well_formed. rewrite Hr, Ha, Ht.
  split; [apply extract_rating_range |].
  split; [apply extract_availability_values |].
  split; [apply strip_idem |].
  destruct Hp as [-> | [s ->]]; [reflexivity | apply strip_idem].
Qed.

Lemma same_item_well_formed (book book' : BookRow) :
  same_item book book' -> well_formed book -> well_formed book'.
Proof.
  unfold same_item, well_formed.
  intros (Ht & Hp & Hr & Ha & _) H. now rewrite Ht, Hp, Hr, Ha.
Qed.

Lemma Forall2_Forall_r {A B} (R : A -> B -> Prop) (P : B -> Prop)
  (l : list A) (l' : list B) :
  Forall2 R l l' -> (forall a b, In a l -> R a b -> P b) -> Forall P l'.
Proof.
  induction 1 as [|a b l l' Hab _ IH]; intros H; constructor.
  - apply (H a b); [now left | exact Hab].
  - apply IH. intros a' b' Hin. apply H. now right.
Qed.

Lemma Forall_concat {A} (P : A -> Prop) (ls : list (list A)) :
  Forall (Forall P) ls -> Forall P (List.concat ls).
Proof.
  induction 1 as [|l ls Hl _ IH]; cbn; [constructor |].
  apply Forall_app. now split.
Qed.

Lemma pr_listing_in (r : page_run) (book : BookRow) :
  In book (pr_listing urljoin r) -> well_formed book /\ bare book.
Proof.
  unfold pr_listing. destruct (pr_fetch r) as [soup|]; [| intros []].
  apply listing_well_formed.
Qed.


End CrawlRecords.

(** ** The sinks, further *)


Lemma max_ids_ge (rows : list db_row) (id : Z) :
  In id (map fst rows) -> (id <= fold_right Z.max 0 (map fst rows))%Z.
Proof.
  induction rows as [|[i b] rows IH]; cbn; [intros [] |].
  intros [-> | H]; [lia |]. specialize (IH H). lia.
Qed.

Lemma next_id_above (rows : list db_row) :
  (1 <= next_id rows)%Z
  /\ Forall (fun id => (id < next_id rows)%Z) (map fst rows).
Proof.
  unfold next_id. split.
  - assert (0 <= fold_right Z.max 0 (map fst rows))%Z; [| lia].
    induction (map fst rows) as [|i l IH]; cbn; lia.
  - apply Forall_forall. intros id Hin. apply max_ids_ge in Hin. lia.
Qed.

Lemma insert_all_appends (books : list BookRow) :
  forall rows : list db_row,
  exists new,
    insert_all rows books = rows ++ new
    /\ map snd new = books
    /\ StronglySorted Z.lt (map fst new)
    /\ Forall (fun id => (1 <= id)%Z
                         /\ Forall (fun old => (old < id)%Z) (map fst rows))
         (map fst new).
Proof.
  induction books as [|b books IH]; intros rows; cbn [insert_all].
  - exists []. rewrite app_nil_r. repeat split; constructor.
  - destruct (IH (rows ++ [(next_id rows, b)])) as (new & E & Hb & Hs & Ha).
    destruct (next_id_above rows) as [H1 Hold].
    exists ((next_id rows, b) :: new).
    rewrite E, <- app_assoc. cbn [app map fst snd].
    split; [reflexivity |]. split; [now rewrite Hb |].
    rewrite map_app in Ha. cbn [map fst] in Ha.
    split.
    + constructor; [exact Hs |].
      eapply Forall_impl; [| exact Ha].
      intros id [_ Hid]. apply Forall_app in Hid as [_ Hid].
      now inversion Hid.
    + constructor; [now split |].
      eapply Forall_impl; [| exact Ha].
      intros id [Hid1 Hid]. apply Forall_app in Hid as [Hid _]. now split.
Qed.



(** ** The sample printer and the command line, further *)

Lemma print_csv_rows_after (rows : list Csv.dict_row) (failed : bool) (limit : Z) :
  forall (i : nat) (w : world),
  exists r evs,
    print_csv_rows rows failed i limit w = (r, after w evs)
    /\ gets evs = [].
Proof.
  induction rows as [|row rows IH]; intros i w; cbn [print_csv_rows].
  - eexists _, []. unfold ret. rewrite after_nil. now split.
  - destruct (Z.of_nat i >=? limit)%Z.
    { eexists _, []. unfold ret. rewrite after_nil. now split. }
    destruct (Csv.dict_get "title" row) as [[t|]|];
      try (eexists _, []; unfold ret; rewrite after_nil; now split).
    destruct (Csv.dict_get "price" row) as [p|];
      try (eexists _, []; unfold ret; rewrite after_nil; now split).
    destruct (Csv.dict_get "rating" row) as [r|];
      try (eexists _, []; unfold ret; rewrite after_nil; now split).
    run_step.
    destruct (IH (S i) (after w [Print (sample_line i (take 50 t) (fmt p) (fmt r))]))
      as (res & evs & E & G).
    rewrite E, after_after. eexists _, _. split; [reflexivity |].
    rewrite gets_app, G. reflexivity.
Qed.

Lemma print_db_rows_after (rows : list db_row) :
  forall (i : nat) (w : world),
  exists evs, print_db_rows rows i w = (tt, after w evs) /\ gets evs = [].
Proof.
  induction rows as [|[id b] rows IH]; intros i w; cbn [print_db_rows].
  - exists []. unfold ret. rewrite after_nil. now split.
  - run_step.
    destruct (IH (S i) (after w [Print (sample_line i (take 50 (title b)) (price b)
                                          (str_of_int (rating b)))]))
      as (evs & E & G).
    rewrite E, after_after. eexists. split; [reflexivity |].
    rewrite gets_app, G. reflexivity.
Qed.

Lemma print_sample_data_after (csv_file : string) (sqlite_file : option string)
  (limit : Z) (w : world) :
  exists r evs,
    print_sample_data csv_file sqlite_file limit w = (r, after w evs)
    /\ gets evs = [].
Proof.
  unfold print_sample_data. run_step. run_step. run_step.
  rewrite !after_after. cbn [app].
  match goal with
  | |- context [after w ?pre] => set (pre0 := pre)
  end.
  assert (Hpre : gets pre0 = []) by reflexivity.
  set (w0 := after w pre0).
  assert (H1 : exists r evs,
             (fun w1 : world =>
                match fs w1 csv_file with
                | Some content =>
                    (print (nl ++ "📄 CSV Sample (" ++ csv_file ++ "):") ;;
                     let (rows, failed) :=
                       Csv.dict_rows
                         (Csv.read_lines
                            (Csv.split_lines EmptyString
                               (Csv.translate_newlines content))
                            Csv.reset) in
                     print_csv_rows rows failed 0 limit) w1
                | None => (Ok tt, w1)
                end) w0 = (r, after w0 evs) /\ gets evs = []).
  { cbn beta. destruct (fs w0 csv_file) as [content|].
    - run_step.
      destruct (Csv.dict_rows _) as [rows failed].
      destruct (print_csv_rows_after rows failed limit 0
                  (after w0 [Print (nl ++ "📄 CSV Sample (" ++ csv_file ++ "):")]))
        as (r & evs & E & G).
      rewrite E, after_after. eexists _, _. split; [reflexivity |].
      rewrite gets_app, G. reflexivity.
    - eexists _, []. rewrite after_nil. now split. }
  destruct H1 as (r1 & e1 & E1 & G1).
  unfold bind at 1. rewrite E1.
  destruct r1 as [[]|e].
  - destruct (truthy sqlite_file) as [file|].
    + cbn beta. destruct (db (after w0 e1) file) as [rows|].
      * run_step.
        unfold bind at 1.
        destruct (print_db_rows_after (sql_limit limit rows) 0
                    (after (after w0 e1)
                       [Print (nl ++ "🗄️  SQLite Sample (" ++ file ++ "):")]))
          as (evs & E & G).
        rewrite E. unfold ret. subst w0. rewrite !after_after.
        eexists _, _. split; [reflexivity |].
        rewrite !gets_app, Hpre, G1, G. reflexivity.
      * subst w0. rewrite after_after. eexists _, _. split; [reflexivity |].
        now rewrite gets_app, Hpre, G1.
    + unfold ret. subst w0. rewrite after_after. eexists _, _.
      split; [reflexivity |]. now rewrite gets_app, Hpre, G1.
  - unfold ret. subst w0. rewrite after_after. eexists _, _.
    split; [reflexivity |]. now rewrite gets_app, Hpre, G1.
Qed.

(** X17.  When no file has the name of the tabular file and no database
    file is named, or no file has its name either, [print_sample_data]
    prints the three lines of its banner and nothing else, and raises
    nothing. *)
Theorem print_sample_data_no_files (csv_file : string)
  (sqlite_file : option string) (limit : Z) (w : world) :
  fs w csv_file = None -> db w csv_file = None ->
  (forall file, truthy sqlite_file = Some file ->
                db w file = None /\ fs w file = None) ->
  print_sample_data csv_file sqlite_file limit w
  = (Ok tt,
     after w [Print (nl ++ repeat_string "=" 60);
              Print ("SAMPLE DATA - First " ++ str_of_int limit ++ " rows");
              Print (repeat_string "=" 60)]).
Proof.
  intros Hcsv _ Hdb. unfold print_sample_data. run_step. run_step. run_step.
  rewrite !after_after. cbn [app]. unfold bind at 1.
  match goal with
  | |- context [after w ?pre] => set (pre0 := pre)
  end.
  change (fs (after w pre0) csv_file) with (fs w csv_file). rewrite Hcsv.
  destruct (truthy sqlite_file) as [file|]; [| reflexivity].
  change (db (after w pre0) file) with (db w file).
  now rewrite (proj1 (Hdb file eq_refl)).
Qed.

(** A first run: no file yet. *)
Lemma print_sample_data_no_files_sample :
  print_sample_data "books.csv" (Some "books.db") 5 offline
  = (Ok tt,
     after offline [Print (nl ++ repeat_string "=" 60);
                    Print ("SAMPLE DATA - First " ++ str_of_int 5 ++ " rows");
                    Print (repeat_string "=" 60)]).
Proof.
  apply (print_sample_data_no_files "books.csv" (Some "books.db") 5 offline).
  - reflexivity.
  - reflexivity.
  - intros file _. split; reflexivity.
Defined.

Lemma save_to_csv_world (books : list BookRow) (filename : string) (w : world) :
  fs (snd (save_to_csv books filename w))
  = (fun f => if (f =? filename)%string
              then Some (Csv.render_rows (fieldnames :: map csv_row books))
              else fs w f)
  /\ db (snd (save_to_csv books filename w)) = db w.
Proof. split; reflexivity. Qed.

Lemma save_to_sqlite_world (books : list BookRow) (filename : string) (w : world) :
  db (snd (save_to_sqlite books filename w))
  = (fun f => if (f =? filename)%string
              then Some (insert_all (table w filename) books)
              else db w f)
  /\ fs (snd (save_to_sqlite books filename w)) = fs w.
Proof. split; reflexivity. Qed.

Lemma header_line_rendered (rows : list (list string)) :
  Csv.render_rows (fieldnames :: rows) = (header_line ++ Csv.render_rows rows)%string.
Proof. reflexivity. Qed.

Section MainMore.

Variable urljoin : string -> string -> result string.

(** What [main] does once it has books: the two sinks, then prints. *)
Lemma main_success_run (a : args) (w : world) (b : BookRow) (bs : list BookRow) :
  fst (scrape_books urljoin (max_pages a) (deep a) w) = b :: bs ->
  exists o e1 e2,
    snd (scrape_books urljoin (max_pages a) (deep a) w) = after w e1
    /\ main urljoin a w
       = (o, after (snd (match truthy (out_sqlite a) with
                         | Some file => save_to_sqlite (b :: bs) file
                         | None => ret tt
                         end (snd (save_to_csv (b :: bs) (out_csv a) (after w e1)))))
               e2).
Proof.
  intros Hbooks.
  destruct (scrape_books_after urljoin (max_pages a) (deep a) w) as [e1 E1].
  rewrite Hbooks in E1.
  set (w2 := snd (save_to_csv (b :: bs) (out_csv a) (after w e1))).
  set (sql := match truthy (out_sqlite a) with
              | Some file => save_to_sqlite (b :: bs) file
              | None => ret tt
              end).
  set (w3 := snd (sql w2)).
  assert (Hcsv : save_to_csv (b :: bs) (out_csv a) (after w e1) = (tt, w2)).
  { subst w2. now destruct (save_to_csv _ _ _) as [[] ?]. }
  assert (Hsql : sql w2 = (tt, w3)).
  { subst w3. now destruct (sql w2) as [[] ?]. }
  destruct (print_sample_data_after (out_csv a) (out_sqlite a) 5 w3)
    as (r & e2 & E2 & _).
  assert (Hmain : exists o e, main urljoin a w = (o, after w3 e)).
  { unfold main. unfold bind at 1. rewrite E1.
    unfold bind at 1. rewrite Hcsv. unfold bind at 1. fold sql. rewrite Hsql.
    unfold bind at 1. rewrite E2. destruct r as [[]|e].
    - run_step. run_step. run_step. unfold bind at 1.
      destruct (truthy (out_sqlite a)) as [file|].
      + rewrite print_after. unfold ret. rewrite !after_after. eauto.
      + unfold ret. rewrite !after_after. eauto.
    - unfold ret. eauto. }
  destruct Hmain as (o & e & Hmain).
  exists o, e1, e. rewrite E1. split; [reflexivity | exact Hmain].
Qed.


End MainMore.


(** ** Reading the tabular file in the default text mode *)

Module CsvText.

Import Csv CsvFacts.

#[local] Hint Rewrite eqb_d_q eqb_d_cr eqb_d_lf eqb_q_d eqb_q_cr eqb_q_lf
  eqb_cr_d eqb_cr_q eqb_cr_lf eqb_lf_d eqb_lf_q eqb_lf_cr Ascii.eqb_refl
  : csv_chars.

Lemma translate_cons (c : ascii) (s : string) :
  (c =? CR)%char = false ->
  translate_newlines (String c s) = String c (translate_newlines s).
Proof. intros H. cbn [translate_newlines]. now rewrite H. Qed.

Lemma translate_cr_lf (s : string) :
  translate_newlines (String CR (String LF s)) = String LF (translate_newlines s).
Proof. reflexivity. Qed.

Lemma translate_cr (c : ascii) (s : string) :
  (c =? LF)%char = false ->
  translate_newlines (String CR (String c s))
  = String LF (translate_newlines (String c s)).
Proof.
  intros H. change (translate_newlines (String CR (String c s)))
    with (if (c =? LF)%char then String LF (translate_newlines s)
          else String LF (translate_newlines (String c s))).
  now rewrite H.
Qed.

(** Translation goes through a concatenation, unless a carriage return at
    the end of the first part meets a line feed at the start of the second. *)
Lemma translate_app (n : nat) :
  forall a b : string,
    String.length a <= n ->
    ends_cr a && starts_lf b = false ->
    translate_newlines (a ++ b)
    = (translate_newlines a ++ translate_newlines b)%string.
Proof.
  induction n as [|n IH]; intros a b Hlen H.
  - destruct a; [reflexivity | simpl in Hlen; lia].
  - destruct a as [|c a]; [reflexivity |]. simpl in Hlen.
    destruct (Ascii.eqb_spec c CR) as [-> | Hc].
    + destruct a as [|c2 a].
      * cbn [ends_cr] in H. rewrite Ascii.eqb_refl in H. cbn [andb append] in *.
        destruct b as [|c3 b]; [reflexivity |]. cbn [starts_lf] in H.
        rewrite translate_cr by assumption. reflexivity.
      * cbn [append]. destruct (Ascii.eqb_spec c2 LF) as [-> | Hc2].
        -- rewrite !translate_cr_lf. cbn [append]. rewrite (IH a b); [reflexivity | simpl in Hlen; lia |].
           destruct a; [destruct b; reflexivity | exact H].
        -- apply Ascii.eqb_neq in Hc2. rewrite !translate_cr by assumption.
           cbn [append]. f_equal. apply (IH (String c2 a) b); [simpl in *; lia | exact H].
    + apply Ascii.eqb_neq in Hc. cbn [append]. rewrite !translate_cons by assumption.
      cbn [append]. f_equal. apply IH; [lia |].
      destruct a; [destruct b; reflexivity | exact H].
Qed.

Lemma translate_no_cr (s : string) :
  no_cr s = true -> translate_newlines s = s.
Proof.
  induction s as [|c s IH]; [reflexivity |]. cbn [no_cr].
  intros H. apply andb_true_iff in H as [Hc Hs].
  apply negb_true_iff in Hc. rewrite translate_cons by assumption.
  now rewrite IH.
Qed.

Lemma translate_nonempty (c : ascii) (s : string) :
  translate_newlines (String c s) <> "".
Proof.
  cbn [translate_newlines].
  destruct (c =? CR)%char; [destruct s as [|c2 s]; [| destruct (c2 =? LF)%char] |];
    discriminate.
Qed.

Lemma ends_cr_app (a b : string) :
  b <> "" -> ends_cr (a ++ b) = ends_cr b.
Proof.
  intros Hb. induction a as [|c a IH]; [reflexivity |]. cbn [append].
  destruct (a ++ b)%string as [|c2 s] eqn:E.
  - apply append_empty in E as [_ E]. contradiction.
  - exact IH.
Qed.

Lemma ends_cr_no_cr (s : string) : no_cr s = true -> ends_cr s = false.
Proof.
  induction s as [|c s IH]; [reflexivity |]. cbn [no_cr]. intros H.
  apply andb_true_iff in H as [Hc Hs]. apply negb_true_iff in Hc.
  destruct s as [|c2 s]; [exact Hc | exact (IH Hs)].
Qed.

Lemma no_cr_unquoted (f : string) : needs_quotes f = false -> no_cr f = true.
Proof.
  induction f as [|c f IH]; [reflexivity |]. intros H.
  apply needs_quotes_cons in H as [Hc Hf]. char_facts Hc.
  cbn [no_cr]. rewrite Hcr. now apply IH.
Qed.

Lemma ends_cr_render_field (f : string) : ends_cr (render_field f) = false.
Proof.
  unfold render_field. destruct (needs_quotes f) eqn:E.
  - change (String quotechar (double_quotes f ++ String quotechar ""))
      with (String quotechar (double_quotes f) ++ String quotechar "")%string.
    now rewrite ends_cr_app.
  - now apply ends_cr_no_cr, no_cr_unquoted.
Qed.

Lemma double_quotes_head (c : ascii) (f : string) :
  (c =? LF)%char = false ->
  exists c' s', double_quotes (String c f) = String c' s'
                /\ (c' =? LF)%char = false.
Proof.
  intros Hc. cbn [double_quotes]. destruct (c =? quotechar)%char; eauto.
Qed.

(** Doubling the quotes and translating the line ends commute. *)
Lemma translate_double_quotes (n : nat) :
  forall f : string,
    String.length f <= n ->
    translate_newlines (double_quotes f) = double_quotes (translate_newlines f).
Proof.
  induction n as [|n IH]; intros f Hlen.
  - destruct f; [reflexivity | simpl in Hlen; lia].
  - destruct f as [|c f]; [reflexivity |]. simpl in Hlen.
    destruct (Ascii.eqb_spec c quotechar) as [-> | Hq].
    { cbn [double_quotes]. rewrite Ascii.eqb_refl.
      rewrite !translate_cons by reflexivity.
      cbn [double_quotes]. rewrite Ascii.eqb_refl. now rewrite IH by lia. }
    apply Ascii.eqb_neq in Hq.
    destruct (Ascii.eqb_spec c CR) as [-> | Hcr].
    { cbn [double_quotes]. rewrite Hq.
      destruct f as [|c2 f]; [reflexivity |].
      destruct (Ascii.eqb_spec c2 LF) as [-> | Hlf].
      - cbn [double_quotes]. rewrite eqb_lf_q, !translate_cr_lf.
        cbn [double_quotes]. rewrite eqb_lf_q. simpl in Hlen.
        now rewrite IH by lia.
      - apply Ascii.eqb_neq in Hlf.
        destruct (double_quotes_head c2 f Hlf) as (c' & s' & E & Hc').
        rewrite E, translate_cr by assumption. rewrite <- E.
        rewrite (IH (String c2 f)) by lia.
        rewrite translate_cr by assumption.
        cbn [double_quotes]. now rewrite eqb_lf_q. }
    apply Ascii.eqb_neq in Hcr.
    cbn [double_quotes]. rewrite Hq. rewrite !translate_cons by assumption.
    cbn [double_quotes]. rewrite Hq. now rewrite IH by lia.
Qed.

Lemma needs_quotes_translate (f : string) :
  needs_quotes (translate_newlines f) = needs_quotes f.
Proof.
  induction f as [|c f IH]; [reflexivity |].
  destruct (Ascii.eqb_spec c CR) as [-> | Hcr].
  - destruct f as [|c2 f]; [reflexivity |].
    cbn [translate_newlines]. rewrite Ascii.eqb_refl.
    now destruct (c2 =? LF)%char.
  - apply Ascii.eqb_neq in Hcr. rewrite translate_cons by assumption.
    cbn [needs_quotes]. now rewrite IH.
Qed.

(** A field is written the same way before and after the translation. *)
Lemma translate_render_field (f : string) :
  translate_newlines (render_field f) = render_field (translate_newlines f).
Proof.
  unfold render_field. rewrite needs_quotes_translate.
  destruct (needs_quotes f) eqn:E.
  - rewrite translate_cons by reflexivity.
    rewrite (translate_app (String.length (double_quotes f)))
      by (try lia; cbn [starts_lf]; rewrite eqb_q_lf; apply andb_false_r).
    now rewrite (translate_double_quotes (String.length f)) by lia.
  - now rewrite translate_no_cr by now apply no_cr_unquoted.
Qed.

Lemma translate_join (row : list string) :
  translate_newlines (String.concat (String delimiter "") (map render_field row))
  = String.concat (String delimiter "")
      (map render_field (map translate_newlines row))
  /\ ends_cr (String.concat (String delimiter "") (map render_field row)) = false.
Proof.
  induction row as [|f fs IH]; [split; reflexivity |].
  destruct fs as [|g fs].
  - cbn [map String.concat].
    split; [apply translate_render_field | apply ends_cr_render_field].
  - destruct IH as [IH1 IH2]. cbn [map] in *. rewrite !concat_cons2. split.
    + rewrite (translate_app (String.length (render_field f)))
        by (try lia; now rewrite ends_cr_render_field).
      cbn [append]. rewrite translate_cons by reflexivity.
      now rewrite IH1, translate_render_field.
    + rewrite ends_cr_app by discriminate. cbn [append].
      destruct (String.concat (String delimiter "")
                  (render_field g :: map render_field fs));
        [reflexivity | exact IH2].
Qed.

Lemma translate_record (row : list string) :
  translate_newlines (record_text row)
  = record_text (map translate_newlines row)
  /\ ends_cr (record_text row) = false.
Proof.
  destruct row as [|f fs]; [split; reflexivity |].
  destruct (translate_join (f :: fs)) as [H1 H2].
  unfold record_text. cbv zeta. rewrite <- H1.
  destruct (String.concat (String delimiter "") (map render_field (f :: fs)))
    as [|c s] eqn:E.
  - cbn [map]. split; reflexivity.
  - pose proof (translate_nonempty c s) as Hne. cbn [map].
    destruct (translate_newlines (String c s)); [contradiction |].
    split; [reflexivity | exact H2].
Qed.

(** The last field of a record and the line feed after it. *)
Lemma field_then_lf (s0 : state) (f : string) (flds : list string)
  (pending : bool) (rest : string) :
  s0 = START_FIELD \/ (s0 = START_RECORD /\ render_field f <> "") ->
  stream (mkReader s0 "" flds) pending (render_field f ++ String LF rest)
  = yield (flds ++ [f]) (stream reset false rest).
Proof.
  intros Hs.
  assert (Hat : at_field s0) by (unfold at_field; tauto).
  unfold render_field in *. destruct (needs_quotes f) eqn:E.
  - cbn [append]. rewrite append_assoc. cbn [append].
    destruct Hat as [-> | ->]; step;
      rewrite (quoted_body (String.length f)) by lia; step; reflexivity.
  - destruct f as [|c f].
    + destruct Hs as [-> | [_ Hne]]; [| congruence]. step. reflexivity.
    + rewrite start_plain by assumption. step. reflexivity.
Qed.

Lemma fields_then_lf (fs : list string) :
  forall (f : string) (s0 : state) (flds : list string) (pending : bool)
         (rest : string),
    s0 = START_FIELD
    \/ (s0 = START_RECORD /\ (fs <> [] \/ render_field f <> "")) ->
    stream (mkReader s0 "" flds) pending
      (String.concat (String delimiter "") (map render_field (f :: fs))
       ++ String LF rest)
    = yield (flds ++ f :: fs) (stream reset false rest).
Proof.
  induction fs as [|g fs IH]; intros f s0 flds pending rest Hs.
  - cbn [map String.concat]. apply field_then_lf.
    destruct Hs as [Hs | [Hs [Hne | Hne]]]; [now left | congruence | now right].
  - cbn [map]. rewrite concat_cons2, !append_assoc. cbn [append].
    rewrite field_then_delimiter
      by (unfold at_field; destruct Hs as [Hs | [Hs _]]; tauto).
    change (render_field g :: map render_field fs)
      with (map render_field (g :: fs)).
    rewrite IH by now left. now rewrite <- app_assoc.
Qed.

(** A record that ends with a line feed alone is read as it was written. *)
Lemma record_read_lf (row : list string) (rest : string) :
  stream reset false (record_text row ++ String LF rest)
  = yield row (stream reset false rest).
Proof.
  unfold record_text. destruct row as [|f fs].
  - cbn [map String.concat]. unfold reset. cbn [append]. step. reflexivity.
  - cbv zeta.
    destruct (String.concat (String delimiter "") (map render_field (f :: fs)))
      as [|c rec] eqn:E.
    + assert (Hrow : fs = [] /\ f = "").
      { destruct fs as [|g fs].
        - cbn in E. now apply render_field_empty in E.
        - cbn [map] in E. rewrite concat_cons2 in E.
          apply append_empty in E as [_ E]. discriminate. }
      destruct Hrow as [-> ->]. unfold reset. cbn [append]. step. reflexivity.
    + rewrite <- E. unfold reset.
      rewrite (fields_then_lf fs f START_RECORD [] false rest); [reflexivity |].
      right. split; [reflexivity |].
      destruct fs as [|g fs]; [right | left; discriminate].
      cbn in E. congruence.
Qed.

(** What the writer wrote, read in the default text mode: every row with
    every field, the carriage returns of the data turned into line feeds. *)
Lemma read_translated (rows : list (list string)) :
  read_lines (split_lines "" (translate_newlines (render_rows rows))) reset
  = (map (map translate_newlines) rows, false).
Proof.
  rewrite (read_lines_stream
             (String.length (translate_newlines (render_rows rows)))) by lia.
  cbn [process_chars String.eqb negb].
  induction rows as [|row rows IH]; [reflexivity |].
  cbn [render_rows].
  change (render_row row) with (record_text row ++ lineterminator)%string.
  rewrite append_assoc.
  rewrite (translate_app (String.length (record_text row)))
    by (try lia; now rewrite (proj2 (translate_record row))).
  unfold lineterminator. cbn [append]. rewrite translate_cr_lf.
  rewrite (proj1 (translate_record row)), record_read_lf, IH. reflexivity.
Qed.

End CsvText.

Lemma no_cr_uint (d : Decimal.uint) :
  no_cr (NilEmpty.string_of_uint d) = true.
Proof. induction d; cbn; auto. Qed.

Lemma no_cr_str_of_int (n : Z) : no_cr (str_of_int n) = true.
Proof.
  unfold str_of_int. destruct (Z.to_int n) as [d|d]; cbn; apply no_cr_uint.
Qed.

Lemma filter_translated_rows (books : list BookRow) :
  filter (fun r => negb (Csv.is_blank r))
    (map (map Csv.translate_newlines) (map csv_row books))
  = map (fun b => map Csv.translate_newlines (csv_row b)) books.
Proof.
  induction books as [|b books IH]; [reflexivity |].
  cbn [map filter csv_row Csv.is_blank negb]. now rewrite IH.
Qed.

Lemma print_csv_rows_saved (limit : Z) (books : list BookRow) :
  forall (i : nat) (w : world),
    print_csv_rows
      (map (Csv.zip_row fieldnames)
         (map (fun b => map Csv.translate_newlines (csv_row b)) books))
      false i limit w
    = (Ok tt, after w (sample_lines i limit books)).
Proof.
  induction books as [|b books IH]; intros i w;
    cbn [map print_csv_rows sample_lines].
  - unfold ret. now rewrite after_nil.
  - destruct (Z.of_nat i >=? limit)%Z.
    { unfold ret. now rewrite after_nil. }
    change (Csv.dict_get "title"
              (Csv.zip_row fieldnames (map Csv.translate_newlines (csv_row b))))
      with (Some (Some (Csv.translate_newlines (title b)))).
    change (Csv.dict_get "price"
              (Csv.zip_row fieldnames (map Csv.translate_newlines (csv_row b))))
      with (Some (Some (Csv.translate_newlines (price b)))).
    change (Csv.dict_get "rating"
              (Csv.zip_row fieldnames (map Csv.translate_newlines (csv_row b))))
      with (Some (Some (Csv.translate_newlines (str_of_int (rating b))))).
    cbv beta iota. run_step. rewrite IH, after_after. cbn [fmt].
    now rewrite (CsvText.translate_no_cr _ (no_cr_str_of_int (rating b))).
Qed.

Lemma sample_lines_length (limit : Z) (books : list BookRow) :
  forall i : nat,
    List.length (sample_lines i limit books)
    = Nat.min (Z.to_nat limit - i) (List.length books).
Proof.
  induction books as [|b books IH]; intros i; cbn [sample_lines List.length].
  - now rewrite Nat.min_0_r.
  - destruct (Z.geb_spec (Z.of_nat i) limit) as [H | H].
    + replace (Z.to_nat limit - i) with 0 by lia. reflexivity.
    + cbn [List.length]. rewrite IH. lia.
Qed.

(** The sample printer on a file that holds the rows of [books]. *)
Lemma print_sample_data_saved (books : list BookRow) (csv_file : string)
  (sqlite_file : option string) (limit : Z) (w : world) :
  fs w csv_file = Some (Csv.render_rows (fieldnames :: map csv_row books)) ->
  exists rest,
    print_sample_data csv_file sqlite_file limit w
    = (Ok tt,
       after w ([Print (nl ++ repeat_string "=" 60);
                 Print ("SAMPLE DATA - First " ++ str_of_int limit ++ " rows");
                 Print (repeat_string "=" 60);
                 Print (nl ++ "📄 CSV Sample (" ++ csv_file ++ "):")]
                ++ sample_lines 0 limit books ++ rest))
    /\ (truthy sqlite_file = None -> rest = []).
Proof.
  intros Hfs.
  unfold print_sample_data. run_step. run_step. run_step.
  rewrite !after_after. cbn [app]. unfold bind at 1.
  match goal with
  | |- context [after w ?pre] => set (pre0 := pre)
  end.
  change (fs (after w pre0) csv_file) with (fs w csv_file). rewrite Hfs.
  run_step. rewrite CsvText.read_translated.
  unfold Csv.dict_rows. cbn [fst snd map].
  rewrite filter_translated_rows.
  change (map Csv.translate_newlines fieldnames) with fieldnames.
  rewrite print_csv_rows_saved, !after_after.
  match goal with
  | |- context [after w ?evs] => set (evs0 := evs)
  end.
  destruct (truthy sqlite_file) as [file|].
  - change (db (after w evs0) file) with (db w file).
    destruct (db w file) as [rows|].
    + run_step. unfold bind at 1.
      destruct (print_db_rows_after (sql_limit limit rows) 0
                  (after (after w evs0)
                     [Print (nl ++ "🗄️  SQLite Sample (" ++ file ++ "):")]))
        as (evs & E & _).
      rewrite E. unfold ret. rewrite !after_after. subst evs0 pre0.
      eexists. split; [| discriminate].
      do 2 f_equal. cbn [app]. reflexivity.
    + exists []. split; [| reflexivity]. subst evs0 pre0.
      cbn [app]. now rewrite app_nil_r.
  - unfold ret. exists []. split; [| reflexivity]. subst evs0 pre0.
    cbn [app]. now rewrite app_nil_r.
Qed.



Section MainReturns.

Variable urljoin : string -> string -> result string.


End MainReturns.

